(** * changesets-action: a shallow embedding of [src/run.ts]

    The release workflow of the action: the rate-limit handlers of the
    REST client, the release creator, the publish and release
    orchestrators with their scanning of the publish tool's output, the
    composer of the pull-request body and the version orchestrator with
    its find-or-create-or-update reconciliation. *)

From Stdlib Require Import ZArith NArith String Ascii Lia.
From stdpp Require Import base option list gmap pretty.

Open Scope Z_scope.

(** ** JavaScript strings

    A JavaScript string is a sequence of UTF-16 code units: [length],
    [===], [split], [includes] and regular expressions without the [u]
    flag all work on code units. *)

Abbreviation jsstring := (list N).

(** An ASCII literal, one code unit per character. *)
Fixpoint js (s : string) : jsstring :=
  match s with
  | EmptyString => []
  | String c s' => N_of_ascii c :: js s'
  end.

Definition LF : jsstring := [10%N].
Definition DQUOTE : jsstring := [34%N].
Definition BACKTICK : jsstring := [96%N].

(** [s.length] *)
Definition jslength (s : jsstring) : Z := Z.of_nat (length s).

(** [s.startsWith(p)], as a function returning the rest. *)
Fixpoint strip_prefix (p s : jsstring) : option jsstring :=
  match p, s with
  | [], _ => Some s
  | a :: p', b :: s' => if N.eqb a b then strip_prefix p' s' else None
  | _ :: _, [] => None
  end.

(** [s.includes(p)] *)
Fixpoint includes (p s : jsstring) : bool :=
  match strip_prefix p s with
  | Some _ => true
  | None => match s with [] => false | _ :: s' => includes p s' end
  end.

(** [s.replace(p, "")] with a string pattern: the first occurrence of
    [p] is removed, wherever it is. *)
Fixpoint remove_first (p s : jsstring) : jsstring :=
  match strip_prefix p s with
  | Some rest => rest
  | None => match s with [] => [] | c :: s' => c :: remove_first p s' end
  end.

(** [s.split(sep)] for a separator of one code unit. *)
Fixpoint split (sep : N) (s : jsstring) : list jsstring :=
  match s with
  | [] => [[]]
  | c :: s' =>
      if N.eqb c sep then [] :: split sep s'
      else match split sep s' with
           | l :: ls => (c :: l) :: ls
           | [] => [[c]]
           end
  end.

(** [parts.join(sep)] *)
Fixpoint join (sep : jsstring) (parts : list jsstring) : jsstring :=
  match parts with
  | [] => []
  | [p] => p
  | p :: rest => p ++ sep ++ join sep rest
  end.

(** ** Errors and results

    A thrown value. [new Error(msg)] has no [code] property; the errors
    of Node's file system carry one (["ENOENT"], ["EACCES"], ...). *)

Record JsError := mkError { message : jsstring; code : option jsstring }.

Definition Error (msg : jsstring) : JsError := mkError msg None.
Definition SystemError (c msg : jsstring) : JsError := mkError msg (Some c).

Inductive outcome (A : Type) :=
| Return (a : A)
| Throw (e : JsError).
Arguments Return {A} a.
Arguments Throw {A} e.

(** Computations that talk to a backend with state [S]: the state
    survives a throw (a release created before the failure stays
    created). *)
Definition M (S A : Type) : Type := S -> outcome A * S.

Definition ret {S A} (a : A) : M S A := fun s => (Return a, s).
Definition throw {S A} (e : JsError) : M S A := fun s => (Throw e, s).
Definition bind {S A B} (m : M S A) (k : A -> M S B) : M S B :=
  fun s => match m s with
           | (Return a, s') => k a s'
           | (Throw e, s') => (Throw e, s')
           end.
Definition lift {S A} (o : outcome A) : M S A := fun s => (o, s).

Notation "'let!' x ':=' m 'in' k" := (bind m (fun x => k))
  (at level 10, x pattern, m at level 100, k at level 200).
Notation "m ';;' k" := (bind m (fun _ => k))
  (at level 100, k at level 200, right associativity).

(** ** Regular expressions

    The fragment of ECMAScript regular expressions the action uses, with
    the backtracking order of the language: a greedy [+] on a character
    class tries the longest run first, an alternation its left branch
    first, and [String.prototype.match] the leftmost start position
    first. *)

Inductive regex :=
| RLit (s : jsstring)
| RPlus (cls : N -> bool)
| RSeq (r1 r2 : regex)
| RAlt (r1 r2 : regex)
| RGroup (i : nat) (r : regex).

Abbreviation captures := (gmap nat jsstring).

Section Matcher.
Context {R : Type}.

Fixpoint plus_greedy (cls : N -> bool) (s : jsstring)
    (k : jsstring -> option R) : option R :=
  match s with
  | c :: s' =>
      if cls c then
        match plus_greedy cls s' k with
        | Some r => Some r
        | None => k s'
        end
      else None
  | [] => None
  end.

Fixpoint rmatch (r : regex) (s : jsstring) (c : captures)
    (k : jsstring -> captures -> option R) : option R :=
  match r with
  | RLit p => match strip_prefix p s with
              | Some rest => k rest c
              | None => None
              end
  | RPlus cls => plus_greedy cls s (fun rest => k rest c)
  | RSeq r1 r2 => rmatch r1 s c (fun rest c' => rmatch r2 rest c' k)
  | RAlt r1 r2 => match rmatch r1 s c k with
                  | Some x => Some x
                  | None => rmatch r2 s c k
                  end
  | RGroup i r1 =>
      rmatch r1 s c (fun rest c' =>
        k rest (<[i := take (length s - length rest) s]> c'))
  end.
End Matcher.

(** [line.match(r)] for a regular expression without the [g] flag: the
    captures of the leftmost match, or [None] for [null]. *)
Fixpoint jsmatch (r : regex) (line : jsstring) : option captures :=
  match rmatch r line ∅ (fun _ c => Some c) with
  | Some c => Some c
  | None => match line with
            | [] => None
            | _ :: rest => jsmatch r rest
            end
  end.

(** The class [\s]: white space and line terminators. *)
Definition is_space (c : N) : bool :=
  ((9 <=? c) && (c <=? 13) || (c =? 32) || (c =? 160) || (c =? 5760)
   || (8192 <=? c) && (c <=? 8202) || (c =? 8232) || (c =? 8233)
   || (c =? 8239) || (c =? 8287) || (c =? 12288) || (c =? 65279))%N.

Definition not_space (c : N) : bool := negb (is_space c).
Definition not_slash (c : N) : bool := negb (c =? 47)%N.
Definition not_at (c : N) : bool := negb (c =? 64)%N.

(** ** The data of the action *)

(** [Package] of [@manypkg/get-packages]: a directory and the fields of
    its [package.json] the action reads. A missing [private] is falsy. *)
Record PackageJSON := {
  name : jsstring;
  version : jsstring;
  private : bool
}.

Record Package := {
  dir : jsstring;
  packageJson : PackageJSON
}.

(** What [getChangelogEntry] of [./utils] returns. *)
Record ChangelogEntry := {
  content : jsstring;
  highestLevel : Z
}.

(** The body of a create-release call, on either backend. *)
Record ReleaseParams := {
  release_name : jsstring;
  release_tag_name : jsstring;
  release_body : jsstring;
  release_prerelease : bool
}.

(** The fields of [GiteaRelease] the action reads. *)
Record GiteaRelease := {
  tag_name : jsstring;
  release_id : jsstring
}.

Record GiteaRef := {
  ref : jsstring;
  repo_full_name : jsstring
}.

(** The fields of [GiteaPullRequest] the action reads or writes. *)
Record GiteaPullRequest := {
  number : Z;
  title : jsstring;
  body : jsstring;
  pr_base : GiteaRef;
  pr_head : GiteaRef
}.

(** The answer of [fetch]: [res.ok], [res.status], [res.statusText] and
    the value of [res.json()]. *)
Record Response (A : Type) := {
  ok : bool;
  status : N;
  statusText : jsstring;
  json : A
}.
Arguments ok {A} _.
Arguments status {A} _.
Arguments statusText {A} _.
Arguments json {A} _.

Record PullParams := {
  pull_base : jsstring;
  pull_head : jsstring;
  pull_title : jsstring;
  pull_body : jsstring
}.

(** The two backends, over a server state [S]. The alternate backend
    is reached by [fetch], one field per call site, each taking the
    request URL (for an update, the URL up to the pull number, and the
    number it ends with); the primary one through the REST client,
    whose calls throw on failure. The headers of the requests are the
    same at every call and are left out. *)
Record Backend (S : Type) := {
  fetch_pulls : jsstring -> S -> Response (list GiteaPullRequest) * S;
  fetch_create_pull : jsstring -> PullParams -> S -> Response GiteaPullRequest * S;
  fetch_update_pull : jsstring -> Z -> jsstring -> jsstring -> S -> Response GiteaPullRequest * S;
  fetch_releases : jsstring -> S -> Response (list GiteaRelease) * S;
  fetch_create_release : jsstring -> ReleaseParams -> S -> Response unit * S;
  rest_search : jsstring -> M S (list GiteaPullRequest);
  rest_pulls_create : PullParams -> M S GiteaPullRequest;
  rest_pulls_update : Z -> jsstring -> jsstring -> M S GiteaPullRequest;
  rest_createRelease : ReleaseParams -> M S unit
}.
Arguments fetch_pulls {S} _.
Arguments fetch_create_pull {S} _.
Arguments fetch_update_pull {S} _.
Arguments fetch_releases {S} _.
Arguments fetch_create_release {S} _.
Arguments rest_search {S} _.
Arguments rest_pulls_create {S} _.
Arguments rest_pulls_update {S} _.
Arguments rest_createRelease {S} _.

(** [PreState] of [@changesets/types]: only the tag is read. *)
Record PreState := { tag : jsstring }.

(** What the process finds around it: environment variables, the
    context of the triggering event, the file system, the subprocesses
    and the helpers of [./gitUtils], [./utils] and
    [./readChangesetState]. Each fallible step gives an [outcome]:
    [getExecOutput] the standard output of a script, which fails on a
    non-zero exit status; [exec] the run of the version script, or of
    the changesets command line when there is none. *)
Record Env := {
  GITEA_API_URL : option jsstring;
  context_owner : jsstring;
  context_repo : jsstring;
  context_ref : jsstring;
  readFile : jsstring -> outcome jsstring;
  getExecOutput : jsstring -> outcome jsstring;
  exec : option jsstring -> outcome unit;
  pushTags : outcome unit;
  getPackages : outcome (list Package * jsstring);
  readChangesetState : outcome (option PreState);
  switchToMaybeExistingBranch : jsstring -> outcome unit;
  reset : outcome unit;
  getVersionsByDirectory : outcome unit;
  getChangedPackages : outcome (list Package);
  checkIfClean : outcome bool;
  commitAll : jsstring -> outcome unit;
  push : jsstring -> outcome unit
}.

(** An environment variable is truthy when it is set and not empty. *)
Definition truthy (v : option jsstring) : bool :=
  match v with
  | Some (_ :: _) => true
  | _ => false
  end.

(** The value spliced into a template literal; an unset variable reads
    [undefined]. *)
Definition env_text (v : option jsstring) : jsstring :=
  match v with
  | Some s => s
  | None => js "undefined"
  end.

(** [path.join(dir, file)] for a directory without a trailing
    separator. *)
Definition path_join (d file : jsstring) : jsstring := d ++ js "/" ++ file.

(** The decimal text of a status code. *)
Definition decimal (n : N) : jsstring := js (pretty n).

(** [`${res.status} ${res.statusText} (${url})`] *)
Definition http_error {A} (res : Response A) (url : jsstring) : JsError :=
  Error (decimal (status res) ++ js " " ++ statusText res ++ js " (" ++ url ++ js ")").

(** ** [setupOctokit]: the rate-limit handlers

    A handler returns [true] to ask for a retry and nothing
    ([undefined], falsy) otherwise; the result is its truthiness. *)

Definition onRateLimit (retryCount : Z) : bool :=
  if retryCount <=? 2 then true else false.

Definition onSecondaryRateLimit (retryCount : Z) : bool :=
  if retryCount <=? 2 then true else false.

Inductive RateLimit := PrimaryQuota | SecondaryLimit.

Definition wantRetry (k : RateLimit) (retryCount : Z) : bool :=
  match k with
  | PrimaryQuota => onRateLimit retryCount
  | SecondaryLimit => onSecondaryRateLimit retryCount
  end.

(** How [@octokit/plugin-throttling] drives the handlers: a request
    starts with a retry count of 0; on a rate-limit response the plugin
    passes the handler the count of retries made so far, and when the
    handler asks for it, adds one to the count and sends the request
    again; otherwise the error is surfaced to the caller.

    [limits] are the rate-limit responses the backend gives to the
    successive attempts of one call; once they are used up the attempt
    is answered. The result is the number of retries made and whether
    the call failed. *)
Fixpoint throttled (limits : list RateLimit) (retryCount : Z) : Z * bool :=
  match limits with
  | [] => (retryCount, false)
  | k :: rest =>
      if wantRetry k retryCount then throttled rest (retryCount + 1)
      else (retryCount, true)
  end.

Definition request (limits : list RateLimit) : Z * bool := throttled limits 0.

(** ** [Promise.all]

    Every task has been started when [Promise.all] is awaited, so all of
    them run. Here they run one after the other in list order, so the
    first task to fail is the first failing one of the list, and its
    failure is the one reported; of tasks that overlap in time
    [Promise.all] reports the one that fails first, which need not be
    the first of the list. *)
Fixpoint Promise_all {S : Type} (tasks : list (M S unit)) : M S unit :=
  match tasks with
  | [] => ret tt
  | t :: rest =>
      fun s => match t s with
               | (Return _, s') => Promise_all rest s'
               | (Throw e, s') => (Throw e, snd (Promise_all rest s'))
               end
  end.

(** A promise created now and awaited later: the request is made, its
    failure is kept for the [await]. The promise has no handler before
    that [await]: when it is rejected while the run waits for another
    step, Node reports an unhandled rejection and ends the process, so
    that the run neither returns nor goes on. A [Throw] that comes out
    of such a promise stands for both ends: the run returns nothing
    and no later step is made. *)
Definition start {S A : Type} (m : M S A) : M S (outcome A) :=
  fun s => let '(o, s') := m s in (Return o, s').

Definition when {S : Type} (b : bool) (m : M S unit) : M S unit :=
  if b then m else ret tt.

(** ** Results of the orchestrators *)

Record PublishedPackage := {
  published_name : jsstring;
  published_version : jsstring
}.

(** [{published: true, publishedPackages}] or [{published: false}],
    and likewise for [released]. *)
Inductive PublishResult :=
| Published (publishedPackages : list PublishedPackage)
| NotPublished.

Inductive ReleasedResult :=
| Released (releasedPackages : list PublishedPackage)
| NotReleased.

Definition summary (pkg : Package) : PublishedPackage :=
  {| published_name := name (packageJson pkg);
     published_version := version (packageJson pkg) |}.

Record PublishOptions := {
  publish_script : jsstring;
  publish_createGithubReleases : bool
}.

Record ReleaseOptions := {
  release_script : jsstring;
  release_createGithubReleases : bool
}.

(** [/New tag:\s+(@[^/]+\/[^@]+|[^/]+)@([^\s]+)/] *)
Definition newTagRegex : regex :=
  RSeq (RLit (js "New tag:"))
    (RSeq (RPlus is_space)
      (RSeq (RGroup 1
               (RAlt (RSeq (RLit (js "@"))
                        (RSeq (RPlus not_slash)
                           (RSeq (RLit (js "/")) (RPlus not_at))))
                     (RPlus not_slash)))
         (RSeq (RLit (js "@")) (RGroup 2 (RPlus not_space))))).

(** [/New tag:/] *)
Definition newTagMarker : regex := RLit (js "New tag:").

(** [new Map(packages.map((x) => [x.packageJson.name, x]))]: a later
    package of the same name replaces an earlier one. *)
Definition packagesByName (packages : list Package) : gmap jsstring Package :=
  foldl (fun m x => <[name (packageJson x) := x]> m) ∅ packages.

Definition notFound (pkgName : jsstring) : JsError :=
  Error (js "Package " ++ DQUOTE ++ pkgName ++ DQUOTE ++ js " not found."
         ++ js "This is probably a bug in the action, please open an issue").

Definition noPackage : JsError :=
  Error (js "No package found."
         ++ js "This is probably a bug in the action, please open an issue").

(** The loop over the lines of the publish tool's output in a
    multi-package workspace; [releasedPackages] is the accumulator the
    loop pushes to. *)
Fixpoint scanTags (byName : gmap jsstring Package) (lines : list jsstring)
    (releasedPackages : list Package) : outcome (list Package) :=
  match lines with
  | [] => Return releasedPackages
  | line :: rest =>
      match jsmatch newTagRegex line with
      | None => scanTags byName rest releasedPackages
      | Some m =>
          let pkgName := default [] (m !! 1%nat) in
          match byName !! pkgName with
          | None => Throw (notFound pkgName)
          | Some pkg => scanTags byName rest (releasedPackages ++ [pkg])
          end
      end
  end.

(** [Object.prototype]'s property names: reading one of them from a
    plain object gives a truthy value even when the object has no such
    entry of its own. *)
Definition prototype_names : list jsstring :=
  [js "constructor"; js "__defineGetter__"; js "__defineSetter__";
   js "hasOwnProperty"; js "__lookupGetter__"; js "__lookupSetter__";
   js "isPrototypeOf"; js "propertyIsEnumerable"; js "toString";
   js "valueOf"; js "__proto__"; js "toLocaleString"].

(** [Object.fromEntries(releases.map((release) => [release.tag_name, release]))] *)
Definition releasesByTagName (releases : list GiteaRelease) : gmap jsstring GiteaRelease :=
  foldl (fun m release => <[tag_name release := release]> m) ∅ releases.

(** [!releasesByTagName[tagName]] *)
Definition noRelease (byTag : gmap jsstring GiteaRelease) (tagName : jsstring) : bool :=
  match byTag !! tagName with
  | Some _ => false
  | None => negb (bool_decide (tagName ∈ prototype_names))
  end.

(** [`${pkg.packageJson.name}@${pkg.packageJson.version}`] *)
Definition packageTag (pkg : Package) : jsstring :=
  name (packageJson pkg) ++ js "@" ++ version (packageJson pkg).

(** [`v${pkg.packageJson.version}`] *)
Definition versionTag (pkg : Package) : jsstring :=
  js "v" ++ version (packageJson pkg).

(** ** [getVersionPrBody] *)

Definition MAX_CHARACTERS_PER_MESSAGE : Z := 60000.

Record PackageInfo := {
  info_highestLevel : Z;
  info_private : bool;
  info_content : jsstring;
  info_header : jsstring
}.

(** The warning sign followed by its variation selector, six times. *)
Definition warningSigns : jsstring :=
  concat (replicate 6 [9888%N; 65039%N]).

Definition messageHeader (hasPublishScript : bool) (branch : jsstring) : jsstring :=
  js "This PR was opened by the [Changesets release](https://github.com/changesets/action) GitHub action. When you're ready to do a release, you can merge this and "
  ++ (if hasPublishScript
      then js "the packages will be published to npm automatically"
      else js "publish to npm yourself or [setup this action to publish automatically](https://github.com/changesets/action#with-publishing)")
  ++ js ". If you're not ready to do a release yet, that's fine, whenever you add more changesets to "
  ++ branch ++ js ", this PR will be updated." ++ LF.

Definition messagePrestate (preState : option PreState) (branch : jsstring) : jsstring :=
  match preState with
  | Some _ =>
      warningSigns ++ LF ++ LF
      ++ BACKTICK ++ branch ++ BACKTICK
      ++ js " is currently in **pre mode** so this branch has prereleases rather than normal releases. If you want to exit prereleases, run "
      ++ BACKTICK ++ js "changeset pre exit" ++ BACKTICK ++ js " on "
      ++ BACKTICK ++ branch ++ BACKTICK ++ js "." ++ LF ++ LF
      ++ warningSigns ++ LF
  | None => []
  end.

Definition messageReleasesHeading : jsstring := js "# Releases".

Definition contentOmitted : jsstring :=
  LF ++ js "> The changelog information of each package has been omitted from this message, as the content exceeds the size limit." ++ LF.

Definition allOmitted : jsstring :=
  LF ++ js "> All release information have been omitted from this message, as the content exceeds the size limit.".

Section Body.
Variables (hasPublishScript : bool) (preState : option PreState)
          (branch : jsstring).

(** The three parts every message starts with. *)
Definition preamble : list jsstring :=
  [messageHeader hasPublishScript branch;
   messagePrestate preState branch;
   messageReleasesHeading].

(** The message as first assembled. *)
Definition rawMessage (changedPackagesInfo : list PackageInfo) : jsstring :=
  join LF (preamble
           ++ map (fun info => info_header info ++ LF ++ LF ++ info_content info)
                  changedPackagesInfo).

(** The message with the changelog of each package left out. *)
Definition headersMessage (changedPackagesInfo : list PackageInfo) : jsstring :=
  join LF (preamble ++ [contentOmitted]
           ++ map (fun info => info_header info ++ LF ++ LF) changedPackagesInfo).

(** The message with all release information left out. *)
Definition bareMessage : jsstring :=
  join LF (preamble ++ [allOmitted]).

Definition getVersionPrBody (changedPackagesInfo : list PackageInfo)
    (prBodyMaxCharacters : Z) : jsstring :=
  let fullMessage := rawMessage changedPackagesInfo in
  let fullMessage :=
    if jslength fullMessage >? prBodyMaxCharacters
    then headersMessage changedPackagesInfo
    else fullMessage in
  let fullMessage :=
    if jslength fullMessage >? prBodyMaxCharacters
    then bareMessage
    else fullMessage in
  fullMessage.
End Body.

(** The total length of the changelog contents of the packages. *)
Definition contentLength (changedPackagesInfo : list PackageInfo) : Z :=
  foldr (fun info n => jslength (info_content info) + n) 0 changedPackagesInfo.

(** ** The orchestrators *)

Record VersionOptions := {
  version_script : option jsstring;
  prTitle : option jsstring;
  commitMessage : option jsstring;
  hasPublishScript : option bool;
  prBodyMaxCharacters : option Z;
  branch : option jsstring
}.

(** Stable insertion by a comparator, as [Array.prototype.sort] orders
    an array under a consistent comparator. *)
Fixpoint insert_by {A} (cmp : A -> A -> Z) (x : A) (l : list A) : list A :=
  match l with
  | [] => [x]
  | y :: l' => if 0 <? cmp x y then y :: insert_by cmp x l' else x :: l
  end.

Definition sort_by {A} (cmp : A -> A -> Z) (l : list A) : list A :=
  foldr (fun x acc => insert_by cmp x acc) [] l.

(** [prefix + (preState ? ` (${preState.tag})` : "")] *)
Definition withPreTag (text : jsstring) (preState : option PreState) : jsstring :=
  text ++ match preState with
          | Some pre => js " (" ++ tag pre ++ js ")"
          | None => []
          end.

(** [if (script)]: the script when it is given and not empty. *)
Definition versionScript (o : VersionOptions) : option jsstring :=
  match version_script o with
  | Some (_ :: _ as script) => Some script
  | _ => None
  end.

(** [`changeset-release/${branch}`] *)
Definition versionBranchOf (branch : jsstring) : jsstring :=
  js "changeset-release/" ++ branch.

Definition typeError : JsError :=
  Error (js "Cannot read properties of undefined (reading 'highestLevel')").

Section Run.
Context {S : Type}.
Variables (env : Env) (api : Backend S).
(** [getChangelogEntry] of [./utils]; a falsy entry is [None]. *)
Variable getChangelogEntry : jsstring -> jsstring -> option ChangelogEntry.

(** [`${process.env.GITEA_API_URL}/repos/${owner}/${repo}`] *)
Definition repoUrl : jsstring :=
  env_text (GITEA_API_URL env) ++ js "/repos/" ++ context_owner env
  ++ js "/" ++ context_repo env.

(** The [try] block of [createRelease]. *)
Definition tryCreateRelease (pkg : Package) (tagName : jsstring) : M S unit :=
  let changelogFileName := path_join (dir pkg) (js "CHANGELOG.md") in
  let! changelog := lift (readFile env changelogFileName) in
  match getChangelogEntry changelog (version (packageJson pkg)) with
  | None =>
      throw (Error (js "Could not find changelog entry for "
                    ++ name (packageJson pkg) ++ js "@"
                    ++ version (packageJson pkg)))
  | Some changelogEntry =>
      let params :=
        {| release_name := tagName;
           release_tag_name := tagName;
           release_body := content changelogEntry;
           release_prerelease := includes (js "-") (version (packageJson pkg)) |} in
      if truthy (GITEA_API_URL env) then
        let url := repoUrl ++ js "/releases" in
        fun s =>
          let '(res, s') := fetch_create_release api url params s in
          if ok res then (Return tt, s') else (Throw (http_error res url), s')
      else rest_createRelease api params
  end.

(** The [catch] block: the error is thrown again when it has a
    [code] other than ["ENOENT"], and dropped otherwise. *)
Definition rethrown (err : JsError) : bool :=
  match code err with
  | Some c => negb (bool_decide (c = js "ENOENT"))
  | None => false
  end.

Definition createRelease (pkg : Package) (tagName : jsstring) : M S unit :=
  fun s => match tryCreateRelease pkg tagName s with
           | (Return _, s') => (Return tt, s')
           | (Throw err, s') =>
               if rethrown err then (Throw err, s') else (Return tt, s')
           end.

(** The loop over the lines in a single-package workspace: the first
    line with the marker records [pkg], creates its release when
    asked to, and leaves the loop. *)
Fixpoint scanMarker (createGithubReleases : bool) (pkg : Package)
    (lines : list jsstring) : M S (list Package) :=
  match lines with
  | [] => ret []
  | line :: rest =>
      match jsmatch newTagMarker line with
      | Some _ =>
          when createGithubReleases (createRelease pkg (versionTag pkg)) ;;
          ret [pkg]
      | None => scanMarker createGithubReleases pkg rest
      end
  end.

Definition publishResult (releasedPackages : list Package) : PublishResult :=
  match releasedPackages with
  | [] => NotPublished
  | _ :: _ => Published (map summary releasedPackages)
  end.

Definition isRoot (tool : jsstring) : bool := bool_decide (tool = js "root").

Definition runPublish (o : PublishOptions) : M S PublishResult :=
  let! stdout := lift (getExecOutput env (publish_script o)) in
  lift (pushTags env) ;;
  let! (packages, tool) := lift (getPackages env) in
  let! releasedPackages :=
    if negb (isRoot tool) then
      let! releasedPackages :=
        lift (scanTags (packagesByName packages) (split 10 stdout) []) in
      when (publish_createGithubReleases o)
        (Promise_all (map (fun pkg => createRelease pkg (packageTag pkg))
                          releasedPackages)) ;;
      ret releasedPackages
    else
      match packages with
      | [] => throw noPackage
      | pkg :: _ =>
          scanMarker (publish_createGithubReleases o) pkg (split 10 stdout)
      end in
  ret (publishResult releasedPackages).

(** The packages of [releasablePackages] without a release of their
    tag name: the loop of [runRelease] on the alternate backend. *)
Fixpoint unreleased (byTag : gmap jsstring GiteaRelease)
    (releasablePackages releasedPackages : list Package) : list Package :=
  match releasablePackages with
  | [] => releasedPackages
  | pkg :: rest =>
      if noRelease byTag (packageTag pkg)
      then unreleased byTag rest (releasedPackages ++ [pkg])
      else unreleased byTag rest releasedPackages
  end.

Definition releasedResult (releasedPackages : list Package) : ReleasedResult :=
  match releasedPackages with
  | [] => NotReleased
  | _ :: _ => Released (map summary releasedPackages)
  end.

Definition releasable (packages : list Package) : list Package :=
  filter (fun pkg => private (packageJson pkg) = false) packages.

Definition runRelease (o : ReleaseOptions) : M S ReleasedResult :=
  match release_script o with
  | [] => ret tt
  | _ :: _ => let! _ := lift (getExecOutput env (release_script o)) in ret tt
  end ;;
  lift (pushTags env) ;;
  let! (packages, tool) := lift (getPackages env) in
  if isRoot tool && bool_decide (packages = []) then throw noPackage
  else
    let releasablePackages := releasable packages in
    let! releasedPackages :=
      match releasablePackages with
      | [] => ret []
      | _ :: _ =>
          let! releasedPackages :=
            if truthy (GITEA_API_URL env) then
              let url := repoUrl ++ js "/releases" in
              let! releases :=
                (fun s => let '(res, s') := fetch_releases api url s in
                          if ok res then (Return (json res), s')
                          else (Throw (http_error res url), s')) in
              ret (unreleased (releasesByTagName releases) releasablePackages [])
            else ret [] in
          when (release_createGithubReleases o)
            (Promise_all (map (fun pkg => createRelease pkg (packageTag pkg))
                              releasedPackages)) ;;
          ret releasedPackages
      end in
    ret (releasedResult releasedPackages).
End Run.

Section Version.
Context {S : Type}.
Variables (env : Env) (api : Backend S).
Variable getChangelogEntry : jsstring -> jsstring -> option ChangelogEntry.
(** [sortTheThings] of [./utils], the comparator of the entries. *)
Variable sortTheThings : PackageInfo -> PackageInfo -> Z.

(** The test of the [filter] in [issuesAndPullRequests]. *)
Definition sameProposal (repo branch versionBranch : jsstring)
    (pr : GiteaPullRequest) : Prop :=
  repo_full_name (pr_base pr) = repo ∧
  repo_full_name (pr_head pr) = repo ∧
  ref (pr_base pr) = branch ∧
  ref (pr_head pr) = versionBranch.

#[global] Instance sameProposal_dec repo branch versionBranch pr :
  Decision (sameProposal repo branch versionBranch pr).
Proof. unfold sameProposal. apply _. Defined.

(** [`repo:${repo}+state:open+head:${versionBranch}+base:${branch}+is:pull-request`] *)
Definition searchQuery (repo versionBranch branch : jsstring) : jsstring :=
  js "repo:" ++ repo ++ js "+state:open+head:" ++ versionBranch
  ++ js "+base:" ++ branch ++ js "+is:pull-request".

(** The result is [searchResult.data.items]. *)
Definition issuesAndPullRequests (repo versionBranch branch : jsstring)
    : M S (list GiteaPullRequest) :=
  if truthy (GITEA_API_URL env) then
    let url := env_text (GITEA_API_URL env) ++ js "/repos/" ++ repo
               ++ js "/pulls?state=open" in
    fun s =>
      let '(res, s') := fetch_pulls api url s in
      if ok res then
        let pullRequests := json res in
        (Return (filter (sameProposal repo branch versionBranch) pullRequests), s')
      else (Throw (http_error res url), s')
  else rest_search api (searchQuery repo versionBranch branch).

Definition createPullRequest (params : PullParams) : M S GiteaPullRequest :=
  if truthy (GITEA_API_URL env) then
    let url := repoUrl env ++ js "/pulls" in
    fun s =>
      let '(res, s') := fetch_create_pull api url params s in
      if ok res then (Return (json res), s')
      else (Throw (http_error res url), s')
  else rest_pulls_create api params.

Definition updatePullRequest (pull_number : Z) (title body : jsstring)
    : M S GiteaPullRequest :=
  if truthy (GITEA_API_URL env) then
    let pulls := repoUrl env ++ js "/pulls/" in
    let url := pulls ++ js (pretty pull_number) in
    fun s =>
      let '(res, s') := fetch_update_pull api pulls pull_number title body s in
      if ok res then (Return (json res), s')
      else (Throw (http_error res url), s')
  else rest_pulls_update api pull_number title body.

(** The changelog entry of one changed package. *)
Definition packageInfo (pkg : Package) : outcome PackageInfo :=
  match readFile env (path_join (dir pkg) (js "CHANGELOG.md")) with
  | Throw e => Throw e
  | Return changelogContents =>
      match getChangelogEntry changelogContents (version (packageJson pkg)) with
      | None => Throw typeError
      | Some entry =>
          Return {| info_highestLevel := highestLevel entry;
                    info_private := private (packageJson pkg);
                    info_content := content entry;
                    info_header := js "## " ++ packageTag pkg |}
      end
  end.

(** [Promise.all] of reads: the results in order, or a failure, here
    that of the first failing package of the list. As for [start], the
    reads have no handler until they are awaited, so a failed read may
    end the process before the run comes to throw its error. *)
Fixpoint allInfo (changedPackages : list Package) : outcome (list PackageInfo) :=
  match changedPackages with
  | [] => Return []
  | pkg :: rest =>
      match packageInfo pkg, allInfo rest with
      | Throw e, _ => Throw e
      | Return _, Throw e => Throw e
      | Return info, Return infos => Return (info :: infos)
      end
  end.

(** The base branch a run works on: [branch ?? ref.replace("refs/heads/", "")]. *)
Definition baseBranch (o : VersionOptions) : jsstring :=
  match branch o with
  | Some b => b
  | None => remove_first (js "refs/heads/") (context_ref env)
  end.

(** The last step of [runVersion]: create a proposal when the search
    found none, else update the first one found. *)
Definition reconcile (items : list GiteaPullRequest)
    (branch versionBranch finalPrTitle prBody : jsstring) : M S Z :=
  match items with
  | [] =>
      let! newPullRequest :=
        createPullRequest {| pull_base := branch; pull_head := versionBranch;
                             pull_title := finalPrTitle; pull_body := prBody |} in
      ret (number newPullRequest)
  | pullRequest :: _ =>
      updatePullRequest (number pullRequest) finalPrTitle prBody ;;
      ret (number pullRequest)
  end.

(** The result is [pullRequestNumber]. The entries are objects, so
    [filter((x) => x)] keeps them all. *)
Definition runVersion (o : VersionOptions) : M S Z :=
  let prTitle := default (js "Version Packages") (prTitle o) in
  let commitMessage := default (js "Version Packages") (commitMessage o) in
  let hasPublishScript := default false (hasPublishScript o) in
  let prBodyMaxCharacters :=
    default MAX_CHARACTERS_PER_MESSAGE (prBodyMaxCharacters o) in
  let repo := context_owner env ++ js "/" ++ context_repo env in
  let branch := baseBranch o in
  let versionBranch := versionBranchOf branch in
  let! preState := lift (readChangesetState env) in
  lift (switchToMaybeExistingBranch env versionBranch) ;;
  lift (reset env) ;;
  lift (getVersionsByDirectory env) ;;
  lift (exec env (versionScript o)) ;;
  let! searchResultPromise :=
    start (issuesAndPullRequests repo versionBranch branch) in
  let! changedPackages := lift (getChangedPackages env) in
  let changedPackagesInfoPromises := allInfo changedPackages in
  let finalPrTitle := withPreTag prTitle preState in
  let! clean := lift (checkIfClean env) in
  when (negb clean) (lift (commitAll env (withPreTag commitMessage preState))) ;;
  lift (push env versionBranch) ;;
  let! items := lift searchResultPromise in
  let! infos := lift changedPackagesInfoPromises in
  let changedPackagesInfo := sort_by sortTheThings infos in
  let prBody :=
    getVersionPrBody hasPublishScript preState branch changedPackagesInfo
                     prBodyMaxCharacters in
  reconcile items branch versionBranch finalPrTitle prBody.
End Version.

(** ** A backend in memory

    The open pull requests and the releases of one repository, served
    to both client shapes: what the host does with the requests the
    action sends. *)

Record Store := {
  pulls : list GiteaPullRequest;
  releases : list GiteaRelease
}.

Definition respond {A} (code : N) (text : string) (a : A) : Response A :=
  {| ok := bool_decide (200 ≤ code < 300)%N; status := code;
     statusText := js text; json := a |}.

Definition freshNumber (prs : list GiteaPullRequest) : Z :=
  1 + foldr (fun pr n => Z.max (number pr) n) 0 prs.

Definition openPull (repo : jsstring) (n : Z) (p : PullParams) : GiteaPullRequest :=
  {| number := n; title := pull_title p; body := pull_body p;
     pr_base := {| ref := pull_base p; repo_full_name := repo |};
     pr_head := {| ref := pull_head p; repo_full_name := repo |} |}.

Definition retitle (n : Z) (t b : jsstring) (pr : GiteaPullRequest) : GiteaPullRequest :=
  if bool_decide (number pr = n)
  then {| number := number pr; title := t; body := b;
          pr_base := pr_base pr; pr_head := pr_head pr |}
  else pr.

Definition stored (n : Z) (prs : list GiteaPullRequest) : option GiteaPullRequest :=
  head (filter (fun pr => number pr = n) prs).

Definition addPull (repo : jsstring) (p : PullParams) (s : Store) : GiteaPullRequest * Store :=
  let pr := openPull repo (freshNumber (pulls s)) p in
  (pr, {| pulls := pulls s ++ [pr]; releases := releases s |}).

Definition editPull (n : Z) (t b : jsstring) (s : Store) : Store :=
  {| pulls := map (retitle n t b) (pulls s); releases := releases s |}.

Definition addRelease (p : ReleaseParams) (s : Store) : Store :=
  {| pulls := pulls s;
     releases := releases s
                 ++ [{| tag_name := release_tag_name p;
                        release_id := decimal (N.of_nat (length (releases s))) |}] |}.

Definition noPull : GiteaPullRequest :=
  {| number := 0; title := []; body := [];
     pr_base := {| ref := []; repo_full_name := [] |};
     pr_head := {| ref := []; repo_full_name := [] |} |}.

(** The search of the backend in memory reads the query it is sent:
    terms separated by [+], each a qualifier on the repository, the
    head or the base branch, or one of [state:open] and
    [is:pull-request], which every stored proposal meets. A query with
    another term is refused. *)
Inductive Term :=
| InRepo (r : jsstring)
| HeadIs (h : jsstring)
| BaseIs (b : jsstring)
| IsOpen
| IsPull.

Definition term (t : jsstring) : option Term :=
  match strip_prefix (js "repo:") t with
  | Some r => Some (InRepo r)
  | None =>
      match strip_prefix (js "head:") t with
      | Some h => Some (HeadIs h)
      | None =>
          match strip_prefix (js "base:") t with
          | Some b => Some (BaseIs b)
          | None =>
              if bool_decide (t = js "state:open") then Some IsOpen
              else if bool_decide (t = js "is:pull-request") then Some IsPull
              else None
          end
      end
  end.

Fixpoint allTerms (l : list jsstring) : option (list Term) :=
  match l with
  | [] => Some []
  | t :: l' =>
      match term t, allTerms l' with
      | Some x, Some xs => Some (x :: xs)
      | _, _ => None
      end
  end.

Definition terms (q : jsstring) : option (list Term) := allTerms (split 43 q).

Definition meets (pr : GiteaPullRequest) (t : Term) : Prop :=
  match t with
  | InRepo r => repo_full_name (pr_base pr) = r
  | HeadIs h => ref (pr_head pr) = h
  | BaseIs b => ref (pr_base pr) = b
  | IsOpen | IsPull => True
  end.

#[global] Instance meets_dec pr t : Decision (meets pr t).
Proof. destruct t; simpl; apply _. Defined.

Definition refused : JsError :=
  mkError (js "Validation Failed") (Some (js "422")).

Definition memServer (repo : jsstring) : Backend Store :=
  {| fetch_pulls := fun _ s => (respond 200 "OK" (pulls s), s);
     fetch_create_pull := fun _ p s =>
       let '(pr, s') := addPull repo p s in (respond 201 "Created" pr, s');
     fetch_update_pull := fun _ n t b s =>
       match stored n (pulls s) with
       | Some pr => (respond 200 "OK" (retitle n t b pr), editPull n t b s)
       | None => (respond 404 "Not Found" noPull, s)
       end;
     fetch_releases := fun _ s => (respond 200 "OK" (releases s), s);
     fetch_create_release := fun _ p s => (respond 201 "Created" tt, addRelease p s);
     rest_search := fun q s =>
       match terms q with
       | Some ts => (Return (filter (fun pr => Forall (meets pr) ts) (pulls s)), s)
       | None => (Throw refused, s)
       end;
     rest_pulls_create := fun p s =>
       let '(pr, s') := addPull repo p s in (Return pr, s');
     rest_pulls_update := fun n t b s =>
       match stored n (pulls s) with
       | Some pr => (Return (retitle n t b pr), editPull n t b s)
       | None => (Throw (mkError (js "Not Found") (Some (js "404"))), s)
       end;
     rest_createRelease := fun p s => (Return tt, addRelease p s) |}.

(** ** A workspace to run the action on *)

Definition mkPackage (d n v : string) : Package :=
  {| dir := js d;
     packageJson := {| name := js n; version := js v; private := false |} |}.

Definition pkg_a : Package := mkPackage "/work/packages/a" "pkg-a" "1.2.3".
Definition pkg_b : Package := mkPackage "/work/packages/b" "@scope/pkg-b" "0.0.1".
Definition pkg_root : Package := mkPackage "/work" "app" "1.0.0".

(** A changelog with a section for 1.2.3 only. *)
Definition changelog_a : jsstring :=
  js "# pkg-a" ++ LF ++ LF ++ js "## 1.2.3" ++ LF ++ LF ++ js "- fix" ++ LF.

(** A stand-in for [getChangelogEntry]: the text after the heading of
    the version, when the changelog has one. *)
Fixpoint sectionOf (heading : jsstring) (changelog : jsstring) : option jsstring :=
  match strip_prefix heading changelog with
  | Some rest => Some rest
  | None => match changelog with
            | [] => None
            | _ :: rest => sectionOf heading rest
            end
  end.

Definition entryOf (changelog version : jsstring) : option ChangelogEntry :=
  match sectionOf (js "## " ++ version ++ LF) changelog with
  | Some text => Some {| content := text; highestLevel := 0 |}
  | None => None
  end.

Definition byLevel (a b : PackageInfo) : Z :=
  info_highestLevel b - info_highestLevel a.

(** A run in which every step succeeds: [stdout] is what the publish
    tool prints, [files] the changelogs on disk. *)
Definition workspace (gitea : option jsstring) (tool : string)
    (packages : list Package) (stdout : jsstring)
    (files : gmap jsstring jsstring) : Env :=
  {| GITEA_API_URL := gitea;
     context_owner := js "acme";
     context_repo := js "tools";
     context_ref := js "refs/heads/main";
     readFile := fun path =>
       match files !! path with
       | Some text => Return text
       | None => Throw (SystemError (js "ENOENT")
                          (js "ENOENT: no such file or directory, open '" ++ path ++ js "'"))
       end;
     getExecOutput := fun _ => Return stdout;
     exec := fun _ => Return tt;
     pushTags := Return tt;
     getPackages := Return (packages, js tool);
     readChangesetState := Return None;
     switchToMaybeExistingBranch := fun _ => Return tt;
     reset := Return tt;
     getVersionsByDirectory := Return tt;
     getChangedPackages := Return packages;
     checkIfClean := Return true;
     commitAll := fun _ => Return tt;
     push := fun _ => Return tt |}.

Definition emptyStore : Store := {| pulls := []; releases := [] |}.

(** Entries for the body of a proposal: one with a short changelog,
    and one with a long heading. *)
Definition shortChange : PackageInfo :=
  {| info_highestLevel := 0; info_private := false;
     info_content := js "- fix" ++ LF;
     info_header := js "## pkg-a@1.2.4" |}.

Definition longChange (n : string) : PackageInfo :=
  {| info_highestLevel := 1; info_private := false;
     info_content := js "### Patch Changes" ++ LF ++ LF ++ js "- a fix" ++ LF;
     info_header := js "## " ++ js n ++ js "@2.0.1 with a long heading text to weigh on the size" |}.


Definition pkg_a_next : Package := mkPackage "/work/packages/a" "pkg-a" "1.3.0".

Definition changelogs : gmap jsstring jsstring :=
  {[ js "/work/packages/a/CHANGELOG.md" := changelog_a ]}.

Definition acme : jsstring := js "acme/tools".

(** The package name a line of the publish tool announces: the first
    capture of [newTagRegex], when the line matches. *)
Definition announced (line : jsstring) : option jsstring :=
  match jsmatch newTagRegex line with
  | Some m => Some (default [] (m !! 1%nat))
  | None => None
  end.

(** The lines of the tag-parsing example, and a package tagged twice. *)
Definition tagLines : list jsstring :=
  [js "New tag: pkg-a@1.2.3"; js "noise"; js "New tag: @scope/pkg-b@0.0.1"].

Definition twiceTagged : list jsstring :=
  [js "New tag: pkg-a@1.2.3"; js "New tag: pkg-a@1.2.3"].

Definition markerLines : list jsstring :=
  [js "noise"; js "New tag: v1.0.0 created"; js "New tag: v2.0.0 created"].

Definition rootChangelogs : gmap jsstring jsstring :=
  {[ js "/work/CHANGELOG.md" := js "# app" ++ LF ++ LF ++ js "## 1.0.0" ++ LF ++ LF ++ js "- first release" ++ LF ]}.

Definition releaseAll : PublishOptions :=
  {| publish_script := js "npm run release"; publish_createGithubReleases := true |}.

Definition giteaUrl : option jsstring := Some (js "https://git.example/api/v1").

Definition pullOf (n : Z) (baseRepo baseRef headRepo headRef : string) : GiteaPullRequest :=
  {| number := n; title := js "Version Packages"; body := [];
     pr_base := {| ref := js baseRef; repo_full_name := js baseRepo |};
     pr_head := {| ref := js headRef; repo_full_name := js headRepo |} |}.

(** Open proposals: one of a fork, one for another base, and the
    proposal of the action for [main]. *)
Definition forkPull : GiteaPullRequest :=
  pullOf 7 "acme/tools" "main" "mallory/tools" "changeset-release/main".
Definition nextPull : GiteaPullRequest :=
  pullOf 8 "acme/tools" "next" "acme/tools" "changeset-release/next".
Definition mainPull : GiteaPullRequest :=
  pullOf 9 "acme/tools" "main" "acme/tools" "changeset-release/main".

Definition busyStore : Store :=
  {| pulls := [forkPull; nextPull; mainPull];
     releases := [{| tag_name := js "pkg-a@1.2.3"; release_id := js "0" |}] |}.

Definition pkg_private : Package :=
  {| dir := js "/work/packages/c";
     packageJson := {| name := js "pkg-c"; version := js "3.0.0"; private := true |} |}.

Definition allChangelogs : gmap jsstring jsstring :=
  {[ js "/work/packages/a/CHANGELOG.md" := changelog_a;
     js "/work/packages/b/CHANGELOG.md" :=
       js "# pkg-b" ++ LF ++ LF ++ js "## 0.0.1" ++ LF ++ LF ++ js "- start" ++ LF ]}.

Definition releaseOptions : ReleaseOptions :=
  {| release_script := js "pnpm release"; release_createGithubReleases := true |}.

(** The steps of [runVersion] around the search and the
    reconciliation all succeed, with [preState] the pre-release state
    read and [infos] the changelog entries gathered. *)
Definition stepsSucceed (env : Env)
    (getChangelogEntry : jsstring -> jsstring -> option ChangelogEntry)
    (o : VersionOptions) (preState : option PreState) (infos : list PackageInfo)
    : Prop :=
  let versionBranch := versionBranchOf (baseBranch env o) in
  readChangesetState env = Return preState
  ∧ switchToMaybeExistingBranch env versionBranch = Return tt
  ∧ reset env = Return tt
  ∧ getVersionsByDirectory env = Return tt
  ∧ exec env (versionScript o) = Return tt
  ∧ (∃ changedPackages,
       getChangedPackages env = Return changedPackages
       ∧ allInfo env getChangelogEntry changedPackages = Return infos)
  ∧ (checkIfClean env = Return true
     ∨ checkIfClean env = Return false
       ∧ commitAll env (withPreTag (default (js "Version Packages") (commitMessage o))
                                   preState) = Return tt)
  ∧ push env versionBranch = Return tt.

(** A proposal for the base and the head branch in the repository; on
    the alternate backend the head must be in the repository too. *)
Definition matches (env : Env) (repo versionBranch branch : jsstring)
    (pr : GiteaPullRequest) : Prop :=
  ref (pr_base pr) = branch
  ∧ ref (pr_head pr) = versionBranch
  ∧ repo_full_name (pr_base pr) = repo
  ∧ (truthy (GITEA_API_URL env) = true → repo_full_name (pr_head pr) = repo).

#[global] Instance matches_dec env repo versionBranch branch pr :
  Decision (matches env repo versionBranch branch pr).
Proof. unfold matches. apply _. Defined.

Definition versionOptions : VersionOptions :=
  {| version_script := None; prTitle := None; commitMessage := None;
     hasPublishScript := Some true; prBodyMaxCharacters := None; branch := None |}.

Definition versionEnv : Env := workspace giteaUrl "pnpm" [pkg_a] [] changelogs.

(** The same workspace on the primary backend, and a store with a
    proposal for another base before the one for [main]. *)
Definition primaryEnv : Env := workspace None "pnpm" [pkg_a] [] changelogs.

Definition twoPulls : Store := {| pulls := [nextPull; mainPull]; releases := [] |}.

Definition infos_a : list PackageInfo :=
  Eval vm_compute in
    match allInfo versionEnv entryOf [pkg_a] with
    | Return infos => infos
    | Throw _ => []
    end.

(** ** The entry point

    The script the action starts with: it reads the inputs, picks one
    of the orchestrators and reports through outputs. *)

(** [extractCreateGithubReleases]: ["aggregate"], [true] or [false]. *)
Inductive CreateReleases := Aggregate | Always | Never.

Definition invalidValue (input : jsstring) : jsstring :=
  js "Invalid value for createGithubReleases: " ++ input ++ js ", assuming "
  ++ DQUOTE ++ js "false" ++ DQUOTE ++ js "...".

(** The value returned and the warnings given on the way. *)
Definition extractCreateGithubReleases (input : jsstring)
    : CreateReleases * list jsstring :=
  if bool_decide (input = js "aggregate") then (Aggregate, [])
  else if bool_decide (input = js "true") then (Always, [])
  else (Never, [invalidValue input]).

(** [if (createGithubReleases)] in [runPublish]: a non-empty string is
    truthy. *)
Definition createsReleases (c : CreateReleases) : bool :=
  match c with
  | Aggregate | Always => true
  | Never => false
  end.

(** A changeset of [@changesets/types], with the releases it asks
    for. *)
Record ChangesetRelease := {
  changeset_package : jsstring;
  changeset_bump : jsstring
}.

Record Changeset := {
  changeset_releases : list ChangesetRelease
}.

(** The auth line appended to, or written as, the user's [.npmrc]. *)
Definition authTokenLine (NPM_TOKEN : option jsstring) : jsstring :=
  js "//registry.npmjs.org/:_authToken=" ++ env_text NPM_TOKEN ++ LF.

(** The canonical form of a code unit when a regular expression
    ignores case: an ASCII letter is matched through its upper case,
    and no other code unit is matched by an ASCII one. *)
Definition canonical (c : N) : N :=
  if ((97 <=? c) && (c <=? 122))%N then (c - 32)%N else c.

Fixpoint strip_prefix_i (p s : jsstring) : option jsstring :=
  match p, s with
  | [], _ => Some s
  | a :: p', b :: s' =>
      if N.eqb (canonical a) (canonical b) then strip_prefix_i p' s' else None
  | _ :: _, [] => None
  end.

Fixpoint skip_spaces (s : jsstring) : jsstring :=
  match s with
  | c :: s' => if is_space c then skip_spaces s' else s
  | [] => []
  end.

(** [/^\s*\/\/registry\.npmjs\.org\/:[_-]authToken=/i.test(line)]: the
    white space the line starts with, then the literal text whatever
    its case, with [_] or [-] before [authToken]. *)
Definition isAuthLine (line : jsstring) : bool :=
  match strip_prefix_i (js "//registry.npmjs.org/:") (skip_spaces line) with
  | Some (c :: rest) =>
      ((c =? 95) || (c =? 45))%N
      && bool_decide (is_Some (strip_prefix_i (js "authToken=") rest))
  | _ => false
  end.

(** The user's [.npmrc] after the publish branch has looked at it:
    [npmrc] is its text when the file exists. *)
Definition ensureNpmrc (npmrc NPM_TOKEN : option jsstring) : jsstring :=
  match npmrc with
  | Some userNpmrcContent =>
      match List.find isAuthLine (split 10 userNpmrcContent) with
      | Some authLine => userNpmrcContent
      | None => userNpmrcContent ++ LF ++ authTokenLine NPM_TOKEN
      end
  | None => authTokenLine NPM_TOKEN
  end.

(** What the script is given: the token, the inputs of the action
    ([setupGitUser] being a well-formed boolean input), the user's
    [.npmrc], and the outcomes of the steps it takes before it reads
    the changesets: the change to the directory of the [cwd] input when
    there is one, the set-up of the git user, the writing of
    [.netrc]. *)
Record ActionInputs := {
  GITHUB_TOKEN : option jsstring;
  NPM_TOKEN : option jsstring;
  input_setupGitUser : bool;
  input_publish : jsstring;
  input_createGithubReleases : jsstring;
  input_version : jsstring;
  input_title : jsstring;
  input_commit : jsstring;
  userNpmrc : option jsstring;
  changeDirectory : outcome unit;
  setupUser : outcome unit;
  writeNetrc : outcome unit;
  readChangesets : outcome (list Changeset)
}.

(** The value of an output: a text, or the JSON text of a list of
    published packages. *)
Inductive OutputValue :=
| Text (s : jsstring)
| PackagesJson (l : list PublishedPackage).

(** What a run of the script leaves: the calls of [core.setOutput] in
    order, the message of [core.setFailed] when it was called, the
    warnings, and the text of the user's [.npmrc] when it was
    written. *)
Record Report := {
  outputs : list (string * OutputValue);
  failed : option jsstring;
  warnings : list jsstring;
  npmrcWritten : option jsstring
}.

(** The branch of [switch (true)] that is taken. *)
Inductive Mode := NoChangesets | PublishMode | EmptyChangesets | VersionMode | NoMode.

Definition hasNonEmptyChangesets (changesets : list Changeset) : bool :=
  existsb (fun changeset => 0 <? Z.of_nat (length (changeset_releases changeset)))
          changesets.

Definition selectMode (changesets : list Changeset) (publishScript : jsstring) : Mode :=
  let hasChangesets := negb (bool_decide (length changesets = 0%nat)) in
  let hasPublishScript := negb (bool_decide (publishScript = [])) in
  if negb hasChangesets && negb hasPublishScript then NoChangesets
  else if negb hasChangesets && hasPublishScript then PublishMode
  else if hasChangesets && negb (hasNonEmptyChangesets changesets) then EmptyChangesets
  else if hasChangesets then VersionMode
  else NoMode.

(** [getOptionalInput]: an empty input is [undefined]. *)
Definition getOptionalInput (input : jsstring) : option jsstring :=
  match input with
  | [] => None
  | _ :: _ => Some input
  end.

(** [String(b)] *)
Definition boolText (b : bool) : jsstring := if b then js "true" else js "false".

Section Main.
Context {S : Type}.
Variables (env : Env) (api : Backend S).
Variable getChangelogEntry : jsstring -> jsstring -> option ChangelogEntry.
Variable sortTheThings : PackageInfo -> PackageInfo -> Z.

Definition firstOutputs (changesets : list Changeset) : list (string * OutputValue) :=
  [("published"%string, Text (js "false"));
   ("publishedPackages"%string, Text (js "[]"));
   ("hasChangesets"%string,
    Text (boolText (negb (bool_decide (length changesets = 0%nat)))))].

(** The script; an error thrown on the way ends in
    [core.setFailed(err.message)]. *)
Definition main (inp : ActionInputs) (s : S) : Report * S :=
  let report outs err ws rc :=
    {| outputs := outs; failed := err; warnings := ws; npmrcWritten := rc |} in
  if negb (truthy (GITHUB_TOKEN inp)) then
    (report [] (Some (js "Please add the GITHUB_TOKEN to the changesets action"))
            [] None, s)
  else
    match changeDirectory inp with
    | Throw err => (report [] (Some (message err)) [] None, s)
    | Return _ =>
    match (if input_setupGitUser inp then setupUser inp else Return tt) with
    | Throw err => (report [] (Some (message err)) [] None, s)
    | Return _ =>
    match writeNetrc inp with
    | Throw err => (report [] (Some (message err)) [] None, s)
    | Return _ =>
    match readChangesets inp with
    | Throw err => (report [] (Some (message err)) [] None, s)
    | Return changesets =>
        let publishScript := input_publish inp in
        let hasPublishScript := negb (bool_decide (publishScript = [])) in
        let outs := firstOutputs changesets in
        match selectMode changesets publishScript with
        | PublishMode =>
            let rc := Some (ensureNpmrc (userNpmrc inp) (NPM_TOKEN inp)) in
            let '(createGithubReleases, ws) :=
              extractCreateGithubReleases (input_createGithubReleases inp) in
            match runPublish env api getChangelogEntry
                    {| publish_script := publishScript;
                       publish_createGithubReleases :=
                         createsReleases createGithubReleases |} s with
            | (Return (Published publishedPackages), s') =>
                (report (outs ++ [("published"%string, Text (js "true"));
                                  ("publishedPackages"%string,
                                   PackagesJson publishedPackages)])
                        None ws rc, s')
            | (Return NotPublished, s') => (report outs None ws rc, s')
            | (Throw err, s') => (report outs (Some (message err)) ws rc, s')
            end
        | VersionMode =>
            match runVersion env api getChangelogEntry sortTheThings
                    {| version_script := getOptionalInput (input_version inp);
                       prTitle := getOptionalInput (input_title inp);
                       commitMessage := getOptionalInput (input_commit inp);
                       hasPublishScript := Some hasPublishScript;
                       prBodyMaxCharacters := None;
                       branch := None |} s with
            | (Return pullRequestNumber, s') =>
                (report (outs ++ [("pullRequestNumber"%string,
                                   Text (js (pretty pullRequestNumber)))])
                        None [] None, s')
            | (Throw err, s') => (report outs (Some (message err)) [] None, s')
            end
        | _ => (report outs None [] None, s)
        end
    end end end end.
End Main.

(** The value an output has at the end: that of the last call for its
    name. *)
Definition outputOf (name : string) (r : Report) : option OutputValue :=
  snd <$> last (filter (fun call => fst call = name) (outputs r)).

(** ** Well-formed tag lines

    What the publish tool prints for a tag: some text without a
    capital N, [New tag:], white space, then the name of the package,
    [@] and its version. *)

(** A name without a scope: not empty, no [/], and neither white space
    nor [@] at its start. *)
Definition plainName (n : jsstring) : Prop :=
  Forall (fun c => not_slash c = true) n
  ∧ ∃ c rest, n = c :: rest ∧ is_space c = false ∧ c ≠ 64%N.

(** A version: it starts with a code unit that is not white space. *)
Definition versionText (v : jsstring) : Prop :=
  ∃ c rest, v = c :: rest ∧ is_space c = false.

Definition tagLine (pre ws n v : jsstring) : jsstring :=
  pre ++ js "New tag:" ++ ws ++ n ++ js "@" ++ v.

(** Backends and environments that fail. An error of the REST client
    carries the status as its [code]. *)
Definition serverError : JsError :=
  mkError (js "Internal Server Error") (Some (js "500")).

Definition downServer : Backend Store :=
  {| fetch_pulls := fun _ s => (respond 500 "Internal Server Error" [], s);
     fetch_create_pull := fun _ _ s => (respond 500 "Internal Server Error" noPull, s);
     fetch_update_pull := fun _ _ _ _ s => (respond 500 "Internal Server Error" noPull, s);
     fetch_releases := fun _ s => (respond 500 "Internal Server Error" [], s);
     fetch_create_release := fun _ _ s => (respond 500 "Internal Server Error" tt, s);
     rest_search := fun _ s => (Throw serverError, s);
     rest_pulls_create := fun _ s => (Throw serverError, s);
     rest_pulls_update := fun _ _ _ s => (Throw serverError, s);
     rest_createRelease := fun _ s => (Throw serverError, s) |}.

Definition withReadFile (env : Env) (read : jsstring -> outcome jsstring) : Env :=
  {| GITEA_API_URL := GITEA_API_URL env;
     context_owner := context_owner env;
     context_repo := context_repo env;
     context_ref := context_ref env;
     readFile := read;
     getExecOutput := getExecOutput env;
     exec := exec env;
     pushTags := pushTags env;
     getPackages := getPackages env;
     readChangesetState := readChangesetState env;
     switchToMaybeExistingBranch := switchToMaybeExistingBranch env;
     reset := reset env;
     getVersionsByDirectory := getVersionsByDirectory env;
     getChangedPackages := getChangedPackages env;
     checkIfClean := checkIfClean env;
     commitAll := commitAll env;
     push := push env |}.

Definition denied : JsError :=
  SystemError (js "EACCES") (js "EACCES: permission denied").

Definition lockedEnv : Env :=
  withReadFile (workspace None "pnpm" [pkg_a] [] changelogs) (fun _ => Throw denied).

(** The mark the publish tool starts its lines with, and two spaces. *)
Definition butterfly : jsstring := [55358%N; 56715%N; 32%N; 32%N].

(** The line printed for a package, as in the example of the tag
    parsing. *)
Definition printed (pkg : Package) : jsstring :=
  js "New tag: " ++ packageTag pkg.

(** The steps of [runVersion] up to the push succeed, [changedPackages]
    being the packages the version tool changed. *)
Definition pushed (env : Env) (o : VersionOptions) (preState : option PreState)
    (changedPackages : list Package) : Prop :=
  let versionBranch := versionBranchOf (baseBranch env o) in
  readChangesetState env = Return preState
  ∧ switchToMaybeExistingBranch env versionBranch = Return tt
  ∧ reset env = Return tt
  ∧ getVersionsByDirectory env = Return tt
  ∧ exec env (versionScript o) = Return tt
  ∧ getChangedPackages env = Return changedPackages
  ∧ (checkIfClean env = Return true
     ∨ checkIfClean env = Return false
       ∧ commitAll env (withPreTag (default (js "Version Packages") (commitMessage o))
                                   preState) = Return tt)
  ∧ push env versionBranch = Return tt.

(** A workspace whose changelogs are missing. *)
Definition bareEnv : Env := workspace giteaUrl "pnpm" [pkg_a] [] ∅.

Definition withRef (env : Env) (r : jsstring) : Env :=
  {| GITEA_API_URL := GITEA_API_URL env;
     context_owner := context_owner env;
     context_repo := context_repo env;
     context_ref := r;
     readFile := readFile env;
     getExecOutput := getExecOutput env;
     exec := exec env;
     pushTags := pushTags env;
     getPackages := getPackages env;
     readChangesetState := readChangesetState env;
     switchToMaybeExistingBranch := switchToMaybeExistingBranch env;
     reset := reset env;
     getVersionsByDirectory := getVersionsByDirectory env;
     getChangedPackages := getChangedPackages env;
     checkIfClean := checkIfClean env;
     commitAll := commitAll env;
     push := push env |}.

(** The package has a changelog with an entry for its version. *)
Definition documented (env : Env)
    (getChangelogEntry : jsstring -> jsstring -> option ChangelogEntry)
    (pkg : Package) : Prop :=
  ∃ changelog entry,
    readFile env (path_join (dir pkg) (js "CHANGELOG.md")) = Return changelog
    ∧ getChangelogEntry changelog (version (packageJson pkg)) = Some entry.

Definition privateOnly : Env := workspace giteaUrl "pnpm" [pkg_private] [] ∅.

Definition releaseEnv : Env :=
  workspace giteaUrl "pnpm" [pkg_a; pkg_b; pkg_private] [] allChangelogs.

(** * Properties *)

(** ** The rate-limit handlers *)

Lemma wantRetry_spec (k : RateLimit) (retryCount : Z) :
  wantRetry k retryCount = bool_decide (retryCount ≤ 2).
Proof.
  destruct k; unfold wantRetry, onRateLimit, onSecondaryRateLimit;
    case_bool_decide; destruct (Z.leb_spec retryCount 2); auto; lia.
Qed.

Lemma throttled_spec (limits : list RateLimit) (retryCount : Z) :
  0 ≤ retryCount ≤ 3 →
  throttled limits retryCount
  = (Z.min 3 (retryCount + Z.of_nat (length limits)),
     bool_decide (3 < retryCount + Z.of_nat (length limits))).
Proof.
  revert retryCount. induction limits as [|k rest IH]; intros c Hc; simpl.
  - rewrite Z.add_0_r, Z.min_r by lia. f_equal. by rewrite bool_decide_false by lia.
  - rewrite wantRetry_spec. case_bool_decide.
    + rewrite IH by lia. f_equal; [f_equal; lia|]. apply bool_decide_ext. lia.
    + assert (c = 3) as -> by lia. f_equal; [lia|].
      by rewrite bool_decide_true by lia.
Qed.

(** C2, as the code has it: each handler asks for a retry exactly when
    the retry count it is given is at most 2, and the count starts at
    0, so the first three rate-limit responses of a call are retried:
    a call answered by [n] consecutive rate-limit responses makes
    [min 3 n] retries and fails exactly when [n] is more than 3. *)
Theorem rate_limit_retries_three_times (limits : list RateLimit) :
  (∀ k retryCount, wantRetry k retryCount = bool_decide (retryCount ≤ 2)) ∧
  request limits
  = (Z.min 3 (Z.of_nat (length limits)), bool_decide (3 < Z.of_nat (length limits))).
Proof.
  split; [apply wantRetry_spec|].
  unfold request. by rewrite throttled_spec by lia.
Qed.

(** C2, the claim as stated fails: after three consecutive rate-limit
    responses the call has been retried three times, the third
    response included, and no failure has been surfaced; it takes a
    fourth one for the call to fail. *)
Lemma third_rate_limit_is_retried :
  request [PrimaryQuota; PrimaryQuota; PrimaryQuota] = (3, false) ∧
  request [SecondaryLimit; SecondaryLimit; SecondaryLimit] = (3, false) ∧
  request [PrimaryQuota; PrimaryQuota; PrimaryQuota; PrimaryQuota] = (3, true) ∧
  wantRetry PrimaryQuota 2 = true ∧
  request [PrimaryQuota; PrimaryQuota; PrimaryQuota] ≠ (2, true).
Proof. repeat split; done. Qed.

(** ** The body of the proposal *)

Lemma join_cons_length (sep p : jsstring) (parts : list jsstring) :
  length (join sep (p :: parts))
  = (length p + sum_list_with (fun x => length sep + length x) parts)%nat.
Proof.
  revert p. induction parts as [|q parts IH]; intros p.
  - simpl. lia.
  - change (join sep (p :: q :: parts)) with (p ++ sep ++ join sep (q :: parts)).
    rewrite !length_app, IH. simpl. lia.
Qed.

Lemma preamble_join_length h p b (blocks : list jsstring) :
  jslength (join LF (preamble h p b ++ blocks))
  = jslength (join LF (preamble h p b))
    + Z.of_nat (sum_list_with (fun x => 1 + length x)%nat blocks).
Proof.
  unfold jslength, preamble.
  change ([?a; ?x; ?y] ++ blocks) with (a :: [x; y] ++ blocks).
  rewrite !join_cons_length, sum_list_with_app. simpl. lia.
Qed.

Lemma blocks_length (infos : list PackageInfo) :
  Z.of_nat (sum_list_with (fun x => 1 + length x)%nat
     (map (fun info => info_header info ++ LF ++ LF ++ info_content info) infos))
  = Z.of_nat (sum_list_with (fun x => 1 + length x)%nat
       (map (fun info => info_header info ++ LF ++ LF) infos))
    + contentLength infos.
Proof.
  induction infos as [|info infos IH]; [done|].
  cbn [map sum_list_with contentLength foldr]. fold (contentLength infos).
  rewrite !Nat2Z.inj_add, IH. unfold jslength. rewrite !length_app. simpl. lia.
Qed.

Lemma contentOmitted_length : jslength contentOmitted = 120.
Proof. reflexivity. Qed.

Lemma headersMessage_length h p b (infos : list PackageInfo) :
  jslength (headersMessage h p b infos)
  = jslength (rawMessage h p b infos) + 121 - contentLength infos.
Proof.
  unfold headersMessage, rawMessage.
  rewrite !preamble_join_length, blocks_length.
  rewrite sum_list_with_app. cbn [sum_list_with]. rewrite !Nat2Z.inj_add.
  pose proof contentOmitted_length as E. unfold jslength in E. lia.
Qed.

(** C3, as the code has it: the message with the changelogs left out
    gains the notice and its separator, 121 code units, and loses the
    contents, so it is no longer than the raw message exactly when the
    contents of the packages have at least 121 code units in total;
    and when it is the body returned, because it fits a limit the raw
    message exceeds, it is shorter than the raw message. *)
Theorem headers_message_length h p b (infos : list PackageInfo) :
  jslength (headersMessage h p b infos)
  = jslength (rawMessage h p b infos) + 121 - contentLength infos
  ∧ (jslength (headersMessage h p b infos) ≤ jslength (rawMessage h p b infos)
     ↔ 121 ≤ contentLength infos)
  ∧ ∀ max, max < jslength (rawMessage h p b infos) →
           jslength (headersMessage h p b infos) ≤ max →
           getVersionPrBody h p b infos max = headersMessage h p b infos
           ∧ jslength (headersMessage h p b infos) < jslength (rawMessage h p b infos).
Proof.
  split; [apply headersMessage_length|]. split.
  - rewrite headersMessage_length. lia.
  - intros max Hraw Hfits. split; [|lia]. unfold getVersionPrBody.
    destruct (Z.gtb_spec (jslength (rawMessage h p b infos)) max); [|lia].
    destruct (Z.gtb_spec (jslength (headersMessage h p b infos)) max); [lia|done].
Qed.

(** C3, the claim as stated fails: a package with a short changelog and
    a limit of 100 code units. The raw message is over the limit, so
    the changelog is left out, and the result is longer than the raw
    message (and is then replaced by the message of the last step). *)
Lemma headers_message_can_be_longer :
  jslength (rawMessage true None (js "main") [shortChange]) = 367 ∧
  jslength (headersMessage true None (js "main") [shortChange]) = 482 ∧
  getVersionPrBody true None (js "main") [shortChange] 100
  = bareMessage true None (js "main").
Proof. repeat split; vm_compute; reflexivity. Qed.

(** C4: when the message is still over the limit after the first
    check, the body is the header, the pre-release block (empty when
    there is none), the heading and the all-omitted notice joined by
    line feeds, a text that does not depend on the changed packages and
    that is returned whatever its length; otherwise the body is the
    message of the first check. So the body fits the limit whenever that
    fixed text does. *)
Theorem bare_message_is_last_step h p b (infos : list PackageInfo) (max : Z) :
  let staged := if jslength (rawMessage h p b infos) >? max
                then headersMessage h p b infos
                else rawMessage h p b infos in
  bareMessage h p b
  = messageHeader h b ++ LF ++ messagePrestate p b ++ LF
    ++ messageReleasesHeading ++ LF ++ allOmitted
  ∧ (max < jslength staged → getVersionPrBody h p b infos max = bareMessage h p b)
  ∧ (jslength staged ≤ max → getVersionPrBody h p b infos max = staged)
  ∧ (jslength (bareMessage h p b) ≤ max →
     jslength (getVersionPrBody h p b infos max) ≤ max).
Proof.
  intros staged. unfold getVersionPrBody. cbv zeta. fold staged.
  split; [reflexivity|].
  destruct (Z.gtb_spec (jslength staged) max) as [Hgt|Hle].
  - split; [done|]. split; [lia | done].
  - split; [lia|]. split; done.
Qed.

Lemma bare_message_is_last_step_witness :
  let infos := [longChange "pkg-a"; longChange "@scope/pkg-b"] in
  jslength (rawMessage true None (js "main") infos) = 531 ∧
  jslength (headersMessage true None (js "main") infos) = 598 ∧
  getVersionPrBody true None (js "main") infos 500 = bareMessage true None (js "main") ∧
  jslength (getVersionPrBody true None (js "main") infos 500) ≤ 500.
Proof.
  intros infos.
  split; [reflexivity|]. split; [reflexivity|]. split.
  - apply (proj1 (proj2 (bare_message_is_last_step true None (js "main") infos 500))).
    vm_compute. reflexivity.
  - apply (proj2 (proj2 (proj2 (bare_message_is_last_step true None (js "main") infos 500)))).
    vm_compute. discriminate.
Defined.

(** ** The release creator *)

Section CreateRelease.
Context {S : Type}.
Variables (env : Env) (api : Backend S).
Variable getChangelogEntry : jsstring -> jsstring -> option ChangelogEntry.

(** A missing changelog file is benign: no release, no error. *)
Lemma createRelease_without_changelog pkg tagName msg (s : S) :
  readFile env (path_join (dir pkg) (js "CHANGELOG.md"))
  = Throw (SystemError (js "ENOENT") msg) →
  createRelease env api getChangelogEntry pkg tagName s = (Return tt, s).
Proof.
  intros H. unfold createRelease, tryCreateRelease, bind, lift.
  by rewrite H.
Qed.

(** Another failure of the read is thrown again. *)
Lemma createRelease_unreadable_changelog pkg tagName c msg (s : S) :
  readFile env (path_join (dir pkg) (js "CHANGELOG.md"))
  = Throw (SystemError c msg) →
  c ≠ js "ENOENT" →
  createRelease env api getChangelogEntry pkg tagName s
  = (Throw (SystemError c msg), s).
Proof.
  intros H Hc. unfold createRelease, tryCreateRelease, bind, lift.
  rewrite H. unfold rethrown. simpl. by rewrite bool_decide_false.
Qed.

(** C1, what the code does: when the changelog is read and has no
    entry for the version, the error thrown in the [try] block has
    no [code], the [catch] block drops it, and [createRelease]
    returns normally without any call to the backend. *)
Theorem createRelease_drops_missing_entry pkg tagName changelog (s : S) :
  readFile env (path_join (dir pkg) (js "CHANGELOG.md")) = Return changelog →
  getChangelogEntry changelog (version (packageJson pkg)) = None →
  createRelease env api getChangelogEntry pkg tagName s = (Return tt, s).
Proof.
  intros Hfile Hentry. unfold createRelease, tryCreateRelease, bind, lift.
  by rewrite Hfile, Hentry.
Qed.
End CreateRelease.

Lemma createRelease_drops_missing_entry_witness :
  readFile (workspace None "pnpm" [pkg_a_next] [] changelogs)
           (path_join (dir pkg_a_next) (js "CHANGELOG.md")) = Return changelog_a ∧
  entryOf changelog_a (js "1.3.0") = None ∧
  createRelease (workspace None "pnpm" [pkg_a_next] [] changelogs) (memServer acme)
                entryOf pkg_a_next (packageTag pkg_a_next) emptyStore
  = (Return tt, emptyStore).
Proof.
  split; [vm_compute; reflexivity|]. split; [vm_compute; reflexivity|].
  apply (createRelease_drops_missing_entry _ _ _ _ _ changelog_a);
    vm_compute; reflexivity.
Defined.

(** ** Maps built by successive insertion *)

Section Keyed.
Context {K V : Type} `{Countable K}.
Variable key : V → K.

Lemma foldl_insert_None (l : list V) (m0 : gmap K V) (k : K) :
  foldl (fun m x => <[key x := x]> m) m0 l !! k = None
  ↔ m0 !! k = None ∧ k ∉ key <$> l.
Proof.
  revert m0. induction l as [|x l IH]; intros m0; simpl.
  - split; [intros ?; split; [done | apply not_elem_of_nil] | by intros [? _]].
  - rewrite IH, lookup_insert_None, not_elem_of_cons.
    split; [intros [[? ?] ?] | intros [? [? ?]]]; repeat split; auto.
Qed.

Lemma foldl_insert_Some (l : list V) (m0 : gmap K V) (k : K) (v : V) :
  foldl (fun m x => <[key x := x]> m) m0 l !! k = Some v →
  m0 !! k = Some v ∨ (v ∈ l ∧ key v = k).
Proof.
  revert m0. induction l as [|x l IH]; intros m0; simpl; [by left|].
  intros [Hm | [? ?]]%IH.
  - apply lookup_insert_Some in Hm as [[<- <-] | [_ ?]]; [right | by left].
    split; [apply elem_of_cons; by left | done].
  - right. split; [apply elem_of_cons; by right | done].
Qed.
End Keyed.

(** ** The scan of the publish tool's output *)

Lemma packagesByName_None (packages : list Package) (n : jsstring) :
  packagesByName packages !! n = None
  ↔ n ∉ (fun pkg => name (packageJson pkg)) <$> packages.
Proof.
  unfold packagesByName.
  rewrite (foldl_insert_None (fun pkg => name (packageJson pkg))).
  rewrite lookup_empty. split; [by intros [_ ?] | done].
Qed.

Lemma packagesByName_Some (packages : list Package) (n : jsstring) (pkg : Package) :
  packagesByName packages !! n = Some pkg →
  pkg ∈ packages ∧ name (packageJson pkg) = n.
Proof.
  unfold packagesByName.
  intros [Hm | ?]%(foldl_insert_Some (fun pkg => name (packageJson pkg))); [|done].
  by rewrite lookup_empty in Hm.
Qed.

Lemma scanTags_acc byName (lines : list jsstring) (acc : list Package) :
  scanTags byName lines acc
  = match scanTags byName lines [] with
    | Return released => Return (acc ++ released)
    | Throw e => Throw e
    end.
Proof.
  revert acc. induction lines as [|line lines IH]; intros acc; simpl.
  - by rewrite app_nil_r.
  - destruct (jsmatch newTagRegex line) as [m|]; [|apply IH].
    destruct (byName !! default [] (m !! 1%nat)) as [pkg|]; [|done].
    rewrite IH, (IH [pkg]).
    destruct (scanTags byName lines []); [|done]. by rewrite <- app_assoc.
Qed.

Lemma scanTags_cons byName (line : jsstring) (lines : list jsstring) :
  scanTags byName (line :: lines) []
  = match announced line with
    | None => scanTags byName lines []
    | Some n =>
        match byName !! n with
        | None => Throw (notFound n)
        | Some pkg =>
            match scanTags byName lines [] with
            | Return released => Return (pkg :: released)
            | Throw e => Throw e
            end
        end
    end.
Proof.
  simpl. unfold announced. destruct (jsmatch newTagRegex line) as [m|]; [|done].
  destruct (byName !! default [] (m !! 1%nat)) as [pkg|]; [|done].
  by rewrite scanTags_acc.
Qed.

Lemma announced_cons (line : jsstring) (lines : list jsstring) :
  omap announced (line :: lines)
  = match announced line with
    | Some n => n :: omap announced lines
    | None => omap announced lines
    end.
Proof. reflexivity. Qed.

Lemma scanTags_known byName (lines : list jsstring) :
  Forall (fun n => is_Some (byName !! n)) (omap announced lines) →
  ∃ released,
    scanTags byName lines [] = Return released
    ∧ Forall2 (fun n pkg => byName !! n = Some pkg) (omap announced lines) released.
Proof.
  induction lines as [|line lines IH]; intros Hall.
  - exists []. split; [done | constructor].
  - rewrite scanTags_cons. rewrite announced_cons in Hall |- *.
    destruct (announced line) as [n|] eqn:Hn.
    + apply Forall_cons in Hall as [[pkg Hpkg] Hall].
      destruct (IH Hall) as (released & -> & Hrel).
      exists (pkg :: released). rewrite Hpkg. split; [done | by constructor].
    + destruct (IH Hall) as (released & -> & Hrel). by exists released.
Qed.

Lemma scanTags_unknown byName (lines : list jsstring) :
  Exists (fun n => byName !! n = None) (omap announced lines) →
  ∃ n, n ∈ omap announced lines ∧ byName !! n = None
       ∧ scanTags byName lines [] = Throw (notFound n).
Proof.
  induction lines as [|line lines IH]; intros Hex; [by apply Exists_nil in Hex|].
  rewrite scanTags_cons. rewrite announced_cons in Hex |- *.
  destruct (announced line) as [n|] eqn:Hn.
  - destruct (byName !! n) as [pkg|] eqn:Hpkg.
    + apply Exists_cons in Hex as [Hex|Hex]; [congruence|].
      destruct (IH Hex) as (n' & Hin & Hnone & ->).
      exists n'. split; [apply elem_of_cons; by right | done].
    + exists n. split; [apply elem_of_cons; by left | done].
  - destruct (IH Hex) as (n' & Hin & Hnone & ->). by exists n'.
Qed.

(** C5: in a multi-package workspace the scan resolves the name each
    matching line announces against the known packages. When every
    announced name is known, the released list has one package per
    matching line, in the order of the lines and with repetitions kept;
    when some announced name is unknown, the scan throws for such a
    name. On the example lines the result is [pkg-a; @scope/pkg-b], and
    a package tagged twice is listed twice. *)
Theorem tag_scan_in_order (packages : list Package) (lines : list jsstring) :
  let byName := packagesByName packages in
  let names := omap announced lines in
  let known := fun n => n ∈ (fun pkg => name (packageJson pkg)) <$> packages in
  (Forall known names →
     ∃ released,
       scanTags byName lines [] = Return released
       ∧ Forall2 (fun n pkg => pkg ∈ packages ∧ name (packageJson pkg) = n)
                 names released)
  ∧ (Exists (fun n => ¬ known n) names →
     ∃ n, n ∈ names ∧ ¬ known n ∧ scanTags byName lines [] = Throw (notFound n))
  ∧ omap announced tagLines = [js "pkg-a"; js "@scope/pkg-b"]
  ∧ scanTags (packagesByName [pkg_a; pkg_b]) tagLines [] = Return [pkg_a; pkg_b]
  ∧ scanTags (packagesByName [pkg_a; pkg_b]) twiceTagged [] = Return [pkg_a; pkg_a]
  ∧ fst (runPublish (workspace None "pnpm" [pkg_a; pkg_b] (join LF tagLines) ∅)
                    (memServer acme) entryOf
                    {| publish_script := js "pnpm release";
                       publish_createGithubReleases := false |} emptyStore)
    = Return (Published [summary pkg_a; summary pkg_b])
  ∧ fst (runPublish (workspace None "pnpm" [pkg_a; pkg_b]
                               (js "New tag: unknown-pkg@1.0.0") ∅)
                    (memServer acme) entryOf
                    {| publish_script := js "pnpm release";
                       publish_createGithubReleases := false |} emptyStore)
    = Throw (notFound (js "unknown-pkg")).
Proof.
  intros byName names known. split; [|split].
  - intros Hall.
    destruct (scanTags_known byName lines) as (released & Hscan & Hrel).
    + eapply Forall_impl; [exact Hall|]. intros n Hn. simpl.
      destruct (byName !! n) eqn:E; [by eexists|].
      by apply packagesByName_None in E.
    + exists released. split; [done|].
      eapply Forall2_impl; [exact Hrel|]. intros n pkg Hpkg. simpl in Hpkg.
      by apply packagesByName_Some.
  - intros Hex.
    destruct (scanTags_unknown byName lines) as (n & Hin & Hnone & Hscan).
    + eapply Exists_impl; [exact Hex|]. intros n Hn. simpl.
      by apply packagesByName_None.
    + exists n. split; [done|]. split; [|done]. by apply packagesByName_None.
  - repeat split; vm_compute; reflexivity.
Qed.

(** ** The single-package scan *)

Lemma marker_match (line : jsstring) :
  is_Some (jsmatch newTagMarker line) ↔ includes (js "New tag:") line = true.
Proof.
  unfold newTagMarker. induction line as [|c line IH]; simpl.
  - split; [by intros [? ?] | done].
  - destruct (strip_prefix (js "New tag:") (c :: line)) eqn:E;
      simpl in E; rewrite E; [by split; [|eexists] | exact IH].
Qed.

Section SinglePackage.
Context {S : Type}.
Variables (env : Env) (api : Backend S).
Variable getChangelogEntry : jsstring -> jsstring -> option ChangelogEntry.

Lemma scanMarker_first cgr pkg (lines : list jsstring) (s : S) :
  Exists (fun line => includes (js "New tag:") line = true) lines →
  scanMarker env api getChangelogEntry cgr pkg lines s
  = (when cgr (createRelease env api getChangelogEntry pkg (versionTag pkg)) ;;
     ret [pkg]) s.
Proof.
  induction lines as [|line lines IH]; intros Hex; [by apply Exists_nil in Hex|].
  simpl. destruct (jsmatch newTagMarker line) as [m|] eqn:E; [done|].
  apply Exists_cons in Hex as [Hin|Hex]; [|by apply IH].
  apply marker_match in Hin as [? Hin]. congruence.
Qed.

Lemma scanMarker_none cgr pkg (lines : list jsstring) (s : S) :
  Forall (fun line => includes (js "New tag:") line = false) lines →
  scanMarker env api getChangelogEntry cgr pkg lines s = (Return [], s).
Proof.
  induction 1 as [|line lines Hline _ IH]; [done|].
  simpl. destruct (jsmatch newTagMarker line) as [m|] eqn:E; [|exact IH].
  assert (includes (js "New tag:") line = true) by (apply marker_match; eauto).
  congruence.
Qed.

(** C6: in a single-package workspace, as soon as some line of the
    output contains [New tag:], the run records the first package of
    the workspace once, whatever the number of lines with the marker,
    and the release it creates (when releases are asked for) has the
    tag name [v] followed by the version of the package; without such
    a line nothing is recorded. *)
Theorem single_package_first_marker o stdout pkg others (s : S) :
  getExecOutput env (publish_script o) = Return stdout →
  pushTags env = Return tt →
  getPackages env = Return (pkg :: others, js "root") →
  (Exists (fun line => includes (js "New tag:") line = true) (split 10 stdout) →
     runPublish env api getChangelogEntry o s
     = (when (publish_createGithubReleases o)
          (createRelease env api getChangelogEntry pkg
                         (js "v" ++ version (packageJson pkg))) ;;
        ret (Published [summary pkg])) s)
  ∧ (Forall (fun line => includes (js "New tag:") line = false) (split 10 stdout) →
     runPublish env api getChangelogEntry o s = (Return NotPublished, s)).
Proof.
  intros Hout Htags Hpkgs.
  unfold runPublish, bind, lift. rewrite Hout, Htags, Hpkgs.
  change (isRoot (js "root")) with true. cbn [negb].
  split; intros Hlines.
  - rewrite scanMarker_first by done. unfold bind, versionTag.
    by destruct (when _ _ s) as [[[]|e] s'].
  - by rewrite scanMarker_none.
Qed.
End SinglePackage.

Lemma single_package_first_marker_witness :
  runPublish (workspace None "root" [pkg_root] (join LF markerLines) rootChangelogs)
             (memServer acme) entryOf releaseAll emptyStore
  = (Return (Published [summary pkg_root]),
     {| pulls := [];
        releases := [{| tag_name := js "v1.0.0"; release_id := js "0" |}] |}).
Proof.
  etransitivity.
  - apply (proj1 (single_package_first_marker
             (workspace None "root" [pkg_root] (join LF markerLines) rootChangelogs)
             (memServer acme) entryOf releaseAll
             (join LF markerLines) pkg_root [] emptyStore
             eq_refl eq_refl eq_refl)).
    vm_compute. apply Exists_cons_tl, Exists_cons_hd. reflexivity.
  - vm_compute. reflexivity.
Defined.

(** ** The search on the alternate backend *)

Section Search.
Context {S : Type}.
Variables (env : Env) (api : Backend S).

(** C8: on the alternate backend the search asks for the open pull
    requests of the repository and keeps, in their order, exactly
    those whose base and head refs are the requested ones and whose
    base and head repositories both have the repository's full
    name. *)
Theorem alternate_search_filters repo versionBranch branch (s s' : S)
    (res : Response (list GiteaPullRequest)) :
  truthy (GITEA_API_URL env) = true →
  fetch_pulls api (env_text (GITEA_API_URL env) ++ js "/repos/" ++ repo
                   ++ js "/pulls?state=open") s = (res, s') →
  ok res = true →
  issuesAndPullRequests env api repo versionBranch branch s
  = (Return (filter (sameProposal repo branch versionBranch) (json res)), s')
  ∧ ∀ pr, pr ∈ filter (sameProposal repo branch versionBranch) (json res)
          ↔ pr ∈ json res
            ∧ ref (pr_base pr) = branch ∧ ref (pr_head pr) = versionBranch
            ∧ repo_full_name (pr_base pr) = repo
            ∧ repo_full_name (pr_head pr) = repo.
Proof.
  intros Hgitea Hfetch Hok. split.
  - unfold issuesAndPullRequests. by rewrite Hgitea, Hfetch, Hok.
  - intros pr. rewrite list_elem_of_filter. unfold sameProposal. tauto.
Qed.
End Search.

Lemma alternate_search_filters_witness :
  issuesAndPullRequests (workspace giteaUrl "pnpm" [pkg_a] [] ∅) (memServer acme)
                        acme (js "changeset-release/main") (js "main") busyStore
  = (Return [mainPull], busyStore).
Proof.
  etransitivity.
  - apply (alternate_search_filters
             (workspace giteaUrl "pnpm" [pkg_a] [] ∅) (memServer acme)
             acme (js "changeset-release/main") (js "main") busyStore busyStore
             (respond 200 "OK" (pulls busyStore))); reflexivity.
  - vm_compute. reflexivity.
Defined.

(** ** The release orchestrator *)

Lemma packageTag_own (pkg : Package) : packageTag pkg ∉ prototype_names.
Proof.
  assert (Forall (fun n : jsstring => 64%N ∉ n) prototype_names) as Hnames
    by (apply (bool_decide_unpack _); vm_compute; exact I).
  intros Hin. eapply Forall_forall in Hnames; [|exact Hin].
  apply Hnames. unfold packageTag.
  apply elem_of_app. right. apply elem_of_cons. by left.
Qed.

Lemma noRelease_spec (existing : list GiteaRelease) (pkg : Package) :
  noRelease (releasesByTagName existing) (packageTag pkg)
  = bool_decide (packageTag pkg ∉ tag_name <$> existing).
Proof.
  unfold noRelease, releasesByTagName.
  destruct (foldl _ _ _ !! _) as [release|] eqn:E.
  - apply (foldl_insert_Some tag_name) in E as [E | [Hin Htag]];
      [by rewrite lookup_empty in E|].
    rewrite bool_decide_false; [done|]. intros Hnot. apply Hnot.
    rewrite <- Htag. by apply list_elem_of_fmap_2.
  - apply (foldl_insert_None tag_name) in E as [_ E].
    rewrite (bool_decide_false _ (packageTag_own pkg)).
    by rewrite bool_decide_true.
Qed.

Lemma unreleased_spec byTag (packages acc : list Package) :
  unreleased byTag packages acc
  = acc ++ filter (fun pkg => noRelease byTag (packageTag pkg) = true) packages.
Proof.
  revert acc. induction packages as [|pkg packages IH]; intros acc; simpl.
  - by rewrite app_nil_r.
  - rewrite filter_cons. destruct (noRelease byTag (packageTag pkg)) eqn:E.
    + rewrite IH, decide_True by done. by rewrite <- app_assoc.
    + rewrite IH, decide_False by done. done.
Qed.

Lemma unreleased_filter (existing : list GiteaRelease) (packages : list Package) :
  unreleased (releasesByTagName existing) packages []
  = filter (fun pkg => packageTag pkg ∉ tag_name <$> existing) packages.
Proof.
  rewrite unreleased_spec. simpl. apply list_filter_iff. intros pkg.
  rewrite noRelease_spec. apply bool_decide_eq_true.
Qed.

Section Release.
Context {S : Type}.
Variables (env : Env) (api : Backend S).
Variable getChangelogEntry : jsstring -> jsstring -> option ChangelogEntry.

Lemma releasable_spec (packages : list Package) (pkg : Package) :
  pkg ∈ releasable packages ↔ pkg ∈ packages ∧ private (packageJson pkg) = false.
Proof. unfold releasable. rewrite list_elem_of_filter. tauto. Qed.

(** C9: on the alternate backend the packages to release are the
    packages that are not private and whose tag name, the name of the
    package, [@] and its version, is the tag name of none of the
    releases the backend lists. A release is created for these only
    (when releases are asked for) and they are the packages
    reported. *)
Theorem alternate_release_skips_existing_tags o out packages tool (s s' : S)
    (res : Response (list GiteaRelease)) :
  truthy (GITEA_API_URL env) = true →
  getExecOutput env (release_script o) = Return out →
  pushTags env = Return tt →
  getPackages env = Return (packages, tool) →
  releasable packages ≠ [] →
  fetch_releases api (repoUrl env ++ js "/releases") s = (res, s') →
  ok res = true →
  let toRelease :=
    filter (fun pkg => packageTag pkg ∉ tag_name <$> json res)
           (releasable packages) in
  runRelease env api getChangelogEntry o s
  = (when (release_createGithubReleases o)
       (Promise_all (map (fun pkg => createRelease env api getChangelogEntry
                                                 pkg (packageTag pkg))
                         toRelease)) ;;
     ret (releasedResult toRelease)) s'
  ∧ ∀ pkg, pkg ∈ toRelease
           ↔ pkg ∈ packages ∧ private (packageJson pkg) = false
             ∧ packageTag pkg ∉ tag_name <$> json res.
Proof.
  intros Hgitea Hout Htags Hpkgs Hsome Hfetch Hok toRelease. split.
  - unfold runRelease, bind, lift. rewrite Hout, Htags, Hpkgs, Hgitea.
    assert (packages ≠ []) as Hne by (by intros ->).
    rewrite (bool_decide_false _ Hne), andb_false_r.
    assert ((match release_script o with
             | [] => ret tt
             | _ :: _ => fun s0 : S => ret tt s0
             end) s = (Return tt, s)) as ->
      by (by destruct (release_script o)).
    subst toRelease.
    destruct (releasable packages) as [|pkg0 rest] eqn:E; [done|].
    rewrite Hfetch, Hok. unfold ret at 1. rewrite unreleased_filter.
    by destruct (when _ _ s') as [[[]|e] s''].
  - intros pkg. unfold toRelease.
    rewrite list_elem_of_filter, releasable_spec. tauto.
Qed.

(** C10: on the primary backend a run adds no package to [released]:
    it calls no backend, leaves it as it was and never reports a
    release. Whatever it is given, it returns [{released: false}]
    whenever it returns; it returns when the release script, the push
    of the tags and the listing of the packages succeed and the
    workspace is not an empty single-package one, and throws
    otherwise. *)
Theorem primary_release_reports_nothing o (s : S) :
  truthy (GITEA_API_URL env) = false →
  (runRelease env api getChangelogEntry o s = (Return NotReleased, s)
   ∨ ∃ e, runRelease env api getChangelogEntry o s = (Throw e, s))
  ∧ ∀ packages tool,
      (release_script o = [] ∨ ∃ out, getExecOutput env (release_script o) = Return out) →
      pushTags env = Return tt →
      getPackages env = Return (packages, tool) →
      ¬ (tool = js "root" ∧ packages = []) →
      runRelease env api getChangelogEntry o s = (Return NotReleased, s).
Proof.
  intros Hprimary. split.
  - unfold runRelease, bind, lift. rewrite Hprimary.
    destruct (release_script o) as [|c script];
      [|destruct (getExecOutput env (c :: script)) as [out|e]; [|eauto]];
      (unfold ret at 1;
       destruct (pushTags env) as [[]|e]; [|eauto];
       destruct (getPackages env) as [[packages tool]|e]; [|eauto];
       destruct (isRoot tool && _); [unfold throw; eauto|];
       destruct (releasable packages); [by left|];
       destruct (release_createGithubReleases o); by left).
  - intros packages tool Hscript Htags Hpkgs Hnot.
    assert (isRoot tool && bool_decide (packages = []) = false) as Hroot.
    { apply andb_false_iff. unfold isRoot.
      destruct (decide (tool = js "root")) as [->|?];
        [right | left]; apply bool_decide_eq_false; [|done].
      intros ->. by apply Hnot. }
    unfold runRelease, bind, lift. rewrite Hprimary.
    destruct (release_script o) as [|c script];
      [|destruct Hscript as [?|[out ->]]; [done|]];
      (unfold ret at 1; rewrite Htags, Hpkgs, Hroot;
       destruct (releasable packages); [done|];
       by destruct (release_createGithubReleases o)).
Qed.
End Release.

Lemma alternate_release_skips_existing_tags_witness :
  runRelease (workspace giteaUrl "pnpm" [pkg_a; pkg_b; pkg_private] [] allChangelogs)
             (memServer acme) entryOf releaseOptions busyStore
  = (Return (Released [summary pkg_b]),
     {| pulls := pulls busyStore;
        releases := releases busyStore
                    ++ [{| tag_name := js "@scope/pkg-b@0.0.1"; release_id := js "1" |}] |}).
Proof.
  etransitivity.
  - apply (alternate_release_skips_existing_tags
             (workspace giteaUrl "pnpm" [pkg_a; pkg_b; pkg_private] [] allChangelogs)
             (memServer acme) entryOf releaseOptions []
             [pkg_a; pkg_b; pkg_private] (js "pnpm") busyStore busyStore
             (respond 200 "OK" (releases busyStore)));
      try reflexivity.
    vm_compute. discriminate.
  - vm_compute. reflexivity.
Defined.

Lemma primary_release_reports_nothing_witness :
  runRelease (workspace None "pnpm" [pkg_a; pkg_b] [] allChangelogs)
             (memServer acme) entryOf releaseOptions emptyStore
  = (Return NotReleased, emptyStore).
Proof.
  apply (proj2 (primary_release_reports_nothing
                  (workspace None "pnpm" [pkg_a; pkg_b] [] allChangelogs)
                  (memServer acme) entryOf releaseOptions emptyStore eq_refl)
               [pkg_a; pkg_b] (js "pnpm")).
  - right. by exists [].
  - reflexivity.
  - reflexivity.
  - intros [Htool _]. vm_compute in Htool. discriminate.
Defined.

(** ** The version orchestrator *)

Section Reconcile.
Context {S : Type}.
Variables (env : Env) (api : Backend S).
Variable getChangelogEntry : jsstring -> jsstring -> option ChangelogEntry.
Variable sortTheThings : PackageInfo -> PackageInfo -> Z.

Lemma runVersion_steps o preState infos items (s s1 : S) :
  stepsSucceed env getChangelogEntry o preState infos →
  issuesAndPullRequests env api (context_owner env ++ js "/" ++ context_repo env)
    (versionBranchOf (baseBranch env o)) (baseBranch env o) s = (Return items, s1) →
  runVersion env api getChangelogEntry sortTheThings o s
  = reconcile env api items (baseBranch env o) (versionBranchOf (baseBranch env o))
      (withPreTag (default (js "Version Packages") (prTitle o)) preState)
      (getVersionPrBody (default false (hasPublishScript o)) preState
         (baseBranch env o) (sort_by sortTheThings infos)
         (default MAX_CHARACTERS_PER_MESSAGE (prBodyMaxCharacters o))) s1.
Proof.
  intros (Hpre & Hswitch & Hreset & Hversions & Hexec
          & (changed & Hchanged & Hinfos) & Hclean & Hpush) Hsearch.
  unfold runVersion, bind, lift, start. cbv zeta.
  rewrite Hpre, Hswitch, Hreset, Hversions, Hexec, Hsearch, Hchanged.
  destruct Hclean as [-> | [-> Hcommit]]; cbn [negb when].
  - unfold ret at 1. by rewrite Hpush, Hinfos.
  - unfold lift. by rewrite Hcommit, Hpush, Hinfos.
Qed.
End Reconcile.

(** ** The backend in memory *)

Lemma strip_prefix_app (p s : jsstring) : strip_prefix p (p ++ s) = Some s.
Proof. induction p as [|c p IH]; [by destruct s|]. simpl. by rewrite N.eqb_refl. Qed.

Lemma split_nonempty (sep : N) (s : jsstring) : ∃ l ls, split sep s = l :: ls.
Proof.
  induction s as [|c s (l & ls & IH)]; [by eexists _, _|].
  simpl. destruct (N.eqb c sep); [by eexists _, _|]. rewrite IH. by eexists _, _.
Qed.

Lemma split_app (sep : N) (a b : jsstring) :
  split sep (a ++ sep :: b) = split sep a ++ split sep b.
Proof.
  induction a as [|c a IH].
  - simpl. by rewrite N.eqb_refl.
  - cbn [app split]. rewrite IH. destruct (N.eqb c sep); [done|].
    by destruct (split_nonempty sep a) as (l & ls & ->).
Qed.

Lemma split_none (sep : N) (s : jsstring) : sep ∉ s → split sep s = [s].
Proof.
  induction s as [|c s IH]; [done|]. intros Hs.
  apply not_elem_of_cons in Hs as [Hc Hs]. cbn [split].
  destruct (N.eqb_spec c sep) as [->|_]; [done|]. by rewrite IH.
Qed.

(** The query of the primary backend, as the backend reads it. *)
Lemma terms_searchQuery (r versionBranch branch : jsstring) :
  43%N ∉ r → 43%N ∉ versionBranch → 43%N ∉ branch →
  terms (searchQuery r versionBranch branch)
  = Some [InRepo r; IsOpen; HeadIs versionBranch; BaseIs branch; IsPull].
Proof.
  intros Hr Hh Hb. unfold terms, searchQuery.
  change (js "repo:" ++ r ++ js "+state:open+head:" ++ versionBranch
          ++ js "+base:" ++ branch ++ js "+is:pull-request")
    with (js "repo:" ++ r ++ 43%N :: js "state:open" ++ 43%N :: js "head:"
          ++ versionBranch ++ 43%N :: js "base:" ++ branch
          ++ 43%N :: js "is:pull-request").
  replace (js "repo:" ++ r ++ 43%N :: js "state:open" ++ 43%N :: js "head:"
           ++ versionBranch ++ 43%N :: js "base:" ++ branch
           ++ 43%N :: js "is:pull-request")
    with ((js "repo:" ++ r) ++ 43%N :: js "state:open" ++ 43%N ::
          (js "head:" ++ versionBranch) ++ 43%N :: (js "base:" ++ branch)
          ++ 43%N :: js "is:pull-request")
    by (by rewrite <- !app_assoc).
  assert (∀ p s : jsstring, 43%N ∉ p → 43%N ∉ s → 43%N ∉ p ++ s) as Hfree.
  { intros p s Hp Hs Hin. apply elem_of_app in Hin as [?|?]; tauto. }
  assert (∀ p : jsstring, bool_decide (43%N ∉ p) = true → 43%N ∉ p) as Hlit.
  { intros p Hp. by apply bool_decide_eq_true in Hp. }
  rewrite !split_app.
  rewrite (split_none 43 (js "repo:" ++ r)) by (apply Hfree; [by apply Hlit|done]).
  rewrite (split_none 43 (js "state:open")) by (by apply Hlit).
  rewrite (split_none 43 (js "head:" ++ versionBranch))
    by (apply Hfree; [by apply Hlit|done]).
  rewrite (split_none 43 (js "base:" ++ branch))
    by (apply Hfree; [by apply Hlit|done]).
  rewrite (split_none 43 (js "is:pull-request")) by (by apply Hlit).
  cbn [app allTerms]. unfold term at 1. rewrite strip_prefix_app.
  unfold term at 2. rewrite strip_prefix_app.
  unfold term at 2. rewrite strip_prefix_app.
  reflexivity.
Qed.

Section Memory.
Variables (env : Env) (repo : jsstring).

(** The search never changes the stored proposals. *)
Lemma mem_search_state r versionBranch branch (s : Store) :
  snd (issuesAndPullRequests env (memServer repo) r versionBranch branch s) = s.
Proof.
  unfold issuesAndPullRequests. destruct (truthy (GITEA_API_URL env)); [done|].
  cbn [memServer rest_search]. by destruct (terms _).
Qed.

Lemma mem_search r versionBranch branch (s : Store) :
  (truthy (GITEA_API_URL env) = false →
   (43%N ∉ r) ∧ (43%N ∉ versionBranch) ∧ (43%N ∉ branch)) →
  issuesAndPullRequests env (memServer repo) r versionBranch branch s
  = (Return (filter (matches env r versionBranch branch) (pulls s)), s).
Proof.
  intros Hfree.
  unfold issuesAndPullRequests. destruct (truthy (GITEA_API_URL env)) eqn:E.
  - cbn. do 2 f_equal. apply list_filter_iff. intros pr.
    unfold matches, sameProposal. rewrite E. tauto.
  - destruct (Hfree eq_refl) as (Hr & Hh & Hb).
    cbn [memServer rest_search]. rewrite terms_searchQuery by done.
    do 2 f_equal. apply list_filter_iff. intros pr.
    unfold matches. rewrite E, !Forall_cons, Forall_nil. cbn [meets].
    intuition discriminate.
Qed.

Lemma mem_create p (s : Store) :
  createPullRequest env (memServer repo) p s
  = (Return (openPull repo (freshNumber (pulls s)) p),
     {| pulls := pulls s ++ [openPull repo (freshNumber (pulls s)) p];
        releases := releases s |}).
Proof. unfold createPullRequest. by destruct (truthy _). Qed.

Lemma mem_update n t b pr (s : Store) :
  stored n (pulls s) = Some pr →
  updatePullRequest env (memServer repo) n t b s
  = (Return (retitle n t b pr), editPull n t b s).
Proof.
  intros Hpr. unfold updatePullRequest.
  destruct (truthy _); cbn; by rewrite Hpr.
Qed.

Lemma number_retitle n t b pr : number (retitle n t b pr) = number pr.
Proof. unfold retitle. by case_bool_decide. Qed.

Lemma matches_retitle r versionBranch branch n t b pr :
  matches env r versionBranch branch (retitle n t b pr)
  ↔ matches env r versionBranch branch pr.
Proof. unfold retitle. by case_bool_decide. Qed.

Lemma matches_new versionBranch branch n t b :
  matches env repo versionBranch branch
    (openPull repo n {| pull_base := branch; pull_head := versionBranch;
                        pull_title := t; pull_body := b |}).
Proof. unfold matches. done. Qed.

Lemma filter_retitle r versionBranch branch n t b (prs : list GiteaPullRequest) :
  filter (matches env r versionBranch branch) (map (retitle n t b) prs)
  = map (retitle n t b) (filter (matches env r versionBranch branch) prs).
Proof.
  induction prs as [|pr prs IH]; [done|].
  cbn [map]. rewrite !filter_cons.
  destruct (decide (matches env r versionBranch branch pr)) as [Hm|Hm].
  - rewrite decide_True by (by apply matches_retitle). cbn [map]. by rewrite IH.
  - rewrite decide_False by (by rewrite matches_retitle). exact IH.
Qed.

Lemma stored_elem (pr : GiteaPullRequest) (prs : list GiteaPullRequest) :
  pr ∈ prs → is_Some (stored (number pr) prs).
Proof.
  intros Hin. unfold stored.
  destruct (filter _ prs) as [|x l] eqn:E; [|by eexists].
  exfalso. eapply (filter_nil_not_elem_of _ _ pr); [exact E | done | done].
Qed.
End Memory.

Section Idempotent.
Variable env : Env.
Variable getChangelogEntry : jsstring -> jsstring -> option ChangelogEntry.
Variable sortTheThings : PackageInfo -> PackageInfo -> Z.

Lemma second_run_updates o preState infos (s0 : Store) :
  let branch := baseBranch env o in
  let versionBranch := versionBranchOf branch in
  let repo := context_owner env ++ js "/" ++ context_repo env in
  let run := runVersion env (memServer repo) getChangelogEntry sortTheThings o in
  let finalPrTitle := withPreTag (default (js "Version Packages") (prTitle o)) preState in
  let prBody :=
    getVersionPrBody (default false (hasPublishScript o)) preState
      branch (sort_by sortTheThings infos)
      (default MAX_CHARACTERS_PER_MESSAGE (prBodyMaxCharacters o)) in
  stepsSucceed env getChangelogEntry o preState infos →
  (truthy (GITEA_API_URL env) = false → (43%N ∉ repo) ∧ (43%N ∉ branch)) →
  ∃ n s1 s2,
    run s0 = (Return n, s1) ∧ run s1 = (Return n, s2)
    ∧ pulls s2 = map (retitle n finalPrTitle prBody) (pulls s1)
    ∧ match filter (matches env repo versionBranch branch) (pulls s0) with
      | [] =>
          n = freshNumber (pulls s0)
          ∧ pulls s1
            = pulls s0
              ++ [openPull repo n
                    {| pull_base := branch; pull_head := versionBranch;
                       pull_title := finalPrTitle; pull_body := prBody |}]
      | pullRequest :: _ =>
          n = number pullRequest
          ∧ pulls s1 = map (retitle n finalPrTitle prBody) (pulls s0)
      end.
Proof.
  intros b h repo run finalPrTitle prBody Hsteps Hfree. subst run.
  assert (truthy (GITEA_API_URL env) = false → (43%N ∉ repo) ∧ (43%N ∉ h) ∧ (43%N ∉ b))
    as Hfree'.
  { intros E. destruct (Hfree E) as [Hr Hb]. repeat split; [done| |done].
    unfold h, versionBranchOf. intros Hin.
    apply elem_of_app in Hin as [Hin|Hin]; [|done].
    revert Hin. apply (bool_decide_unpack _). vm_compute. reflexivity. }
  assert (∀ s, runVersion env (memServer repo) getChangelogEntry sortTheThings o s
               = reconcile env (memServer repo)
                   (filter (matches env repo h b) (pulls s)) b h
                   finalPrTitle prBody s) as Hrun.
  { intros s. apply runVersion_steps; [done | by apply mem_search]. }
  rewrite Hrun. destruct (filter _ (pulls s0)) as [|pr rest] eqn:E.
  - set (new := openPull repo (freshNumber (pulls s0))
                  {| pull_base := b; pull_head := h;
                     pull_title := finalPrTitle; pull_body := prBody |}).
    set (s1 := {| pulls := pulls s0 ++ [new]; releases := releases s0 |}).
    assert (new ∈ pulls s1) as Hin
      by (apply elem_of_app; right; apply list_elem_of_singleton; done).
    destruct (stored_elem new (pulls s1) Hin) as [x Hx].
    exists (number new), s1, (editPull (number new) finalPrTitle prBody s1).
    split; [|split; [|done]].
    + unfold reconcile, bind. by rewrite mem_create.
    + rewrite Hrun. cbn [pulls s1]. rewrite filter_app, E, filter_cons.
      rewrite decide_True by apply matches_new.
      unfold reconcile, bind. cbn [app filter].
      by rewrite (mem_update env repo _ _ _ x).
  - assert (pr ∈ pulls s0) as Hin.
    { eapply (proj1 (list_elem_of_filter (matches env repo h b) _ pr)).
      rewrite E. apply elem_of_cons. by left. }
    destruct (stored_elem pr (pulls s0) Hin) as [x Hx].
    set (s1 := editPull (number pr) finalPrTitle prBody s0).
    set (pr' := retitle (number pr) finalPrTitle prBody pr).
    assert (pr' ∈ pulls s1) as Hin'
      by (apply list_elem_of_fmap_2; done).
    destruct (stored_elem pr' (pulls s1) Hin') as [x' Hx'].
    assert (number pr' = number pr) as Hnum by apply number_retitle.
    exists (number pr), s1, (editPull (number pr) finalPrTitle prBody s1).
    split; [|split; [|done]].
    + unfold reconcile, bind. by rewrite (mem_update env repo _ _ _ x).
    + rewrite Hrun. cbn [pulls s1 editPull]. rewrite filter_retitle, E.
      cbn [map]. fold pr'. unfold reconcile, bind. rewrite Hnum.
      rewrite Hnum in Hx'. by rewrite (mem_update env repo _ _ _ x').
Qed.
End Idempotent.

Section Proposal.
Variable env : Env.
Variable getChangelogEntry : jsstring -> jsstring -> option ChangelogEntry.
Variable sortTheThings : PackageInfo -> PackageInfo -> Z.

(** C7: the head branch of the proposal is [changeset-release/]
    followed by the base branch, and the search is made for that base
    and head: on the primary backend with the query
    [repo:<repo>+state:open+head:changeset-release/<base>+base:<base>+is:pull-request],
    on the alternate one by keeping, of the open proposals fetched,
    those whose base and head are in the repository and have these
    two branches. When the steps around it succeed, a run creates a
    proposal with that base and head exactly when the search found
    none and returns the number of the new proposal; otherwise it
    updates the title and body of the first proposal found and
    returns its number. Against a backend that keeps the proposals and
    reads the query it is sent, the first run adds a proposal with
    that base and head exactly when none is stored for them (one
    stored for another base or head does not count) and otherwise
    retitles the first one stored for them; a second run returns the
    same number and adds no proposal. On the primary backend this
    needs a repository and a base branch without [+], the separator
    of the query. *)
Theorem version_proposal_found_or_created o preState infos :
  stepsSucceed env getChangelogEntry o preState infos →
  let branch := baseBranch env o in
  let versionBranch := js "changeset-release/" ++ branch in
  let repo := context_owner env ++ js "/" ++ context_repo env in
  let finalPrTitle := withPreTag (default (js "Version Packages") (prTitle o)) preState in
  let prBody :=
    getVersionPrBody (default false (hasPublishScript o)) preState branch
      (sort_by sortTheThings infos)
      (default MAX_CHARACTERS_PER_MESSAGE (prBodyMaxCharacters o)) in
  (∀ (S : Type) (api : Backend S),
     truthy (GITEA_API_URL env) = false →
     issuesAndPullRequests env api repo versionBranch branch
     = rest_search api
         (js "repo:" ++ repo ++ js "+state:open+head:changeset-release/" ++ branch
          ++ js "+base:" ++ branch ++ js "+is:pull-request"))
  ∧ (∀ (S : Type) (api : Backend S) (s : S),
       truthy (GITEA_API_URL env) = true →
       let url := env_text (GITEA_API_URL env) ++ js "/repos/" ++ repo
                  ++ js "/pulls?state=open" in
       ok (fst (fetch_pulls api url s)) = true →
       issuesAndPullRequests env api repo versionBranch branch s
       = (Return (filter (fun pr =>
                            repo_full_name (pr_base pr) = repo
                            ∧ repo_full_name (pr_head pr) = repo
                            ∧ ref (pr_base pr) = branch
                            ∧ ref (pr_head pr) = versionBranch)
                         (json (fst (fetch_pulls api url s)))),
          snd (fetch_pulls api url s)))
  ∧ (∀ (S : Type) (api : Backend S) items (s s1 : S),
       issuesAndPullRequests env api repo versionBranch branch s = (Return items, s1) →
       runVersion env api getChangelogEntry sortTheThings o s
       = match items with
         | [] =>
             (let! newPullRequest :=
                createPullRequest env api
                  {| pull_base := branch; pull_head := versionBranch;
                     pull_title := finalPrTitle; pull_body := prBody |} in
              ret (number newPullRequest)) s1
         | pullRequest :: _ =>
             (updatePullRequest env api (number pullRequest) finalPrTitle prBody ;;
              ret (number pullRequest)) s1
         end)
  ∧ ((truthy (GITEA_API_URL env) = false → (43%N ∉ repo) ∧ (43%N ∉ branch)) →
     ∀ s0 : Store,
       ∃ n s1 s2,
         runVersion env (memServer repo) getChangelogEntry sortTheThings o s0
         = (Return n, s1)
         ∧ runVersion env (memServer repo) getChangelogEntry sortTheThings o s1
           = (Return n, s2)
         ∧ pulls s2 = map (retitle n finalPrTitle prBody) (pulls s1)
         ∧ length (pulls s2) = length (pulls s1)
         ∧ match
             filter (fun pr =>
                       ref (pr_base pr) = branch
                       ∧ ref (pr_head pr) = versionBranch
                       ∧ repo_full_name (pr_base pr) = repo
                       ∧ (truthy (GITEA_API_URL env) = true →
                          repo_full_name (pr_head pr) = repo))
                    (pulls s0)
           with
           | [] =>
               n = freshNumber (pulls s0)
               ∧ pulls s1
                 = pulls s0
                   ++ [{| number := n; title := finalPrTitle; body := prBody;
                          pr_base := {| ref := branch; repo_full_name := repo |};
                          pr_head := {| ref := versionBranch;
                                        repo_full_name := repo |} |}]
           | pullRequest :: _ =>
               n = number pullRequest
               ∧ pulls s1 = map (retitle n finalPrTitle prBody) (pulls s0)
           end).
Proof.
  intros Hsteps branch versionBranch repo finalPrTitle prBody.
  split; [|split; [|split]].
  - intros S api Hprimary. unfold issuesAndPullRequests, searchQuery.
    rewrite Hprimary. reflexivity.
  - intros S api s Halt url Hok. unfold issuesAndPullRequests.
    rewrite Halt. fold url. destruct (fetch_pulls api url s) as [res s'].
    cbn [fst snd] in *. by rewrite Hok.
  - intros S api items s s1 Hsearch.
    rewrite (runVersion_steps env api getChangelogEntry sortTheThings
               o preState infos items s s1 Hsteps Hsearch).
    by destruct items.
  - intros Hfree s0.
    destruct (second_run_updates env getChangelogEntry sortTheThings
                o preState infos s0 Hsteps Hfree)
      as (n & s1 & s2 & H1 & H2 & H3 & H4).
    exists n, s1, s2. repeat split; [done | done | done | |exact H4].
    rewrite H3. apply length_map.
Qed.
End Proposal.

Lemma versionEnv_steps : stepsSucceed versionEnv entryOf versionOptions None infos_a.
Proof.
  repeat split; try reflexivity.
  - exists [pkg_a]. split; vm_compute; reflexivity.
  - by left.
Qed.

Lemma primaryEnv_steps : stepsSucceed primaryEnv entryOf versionOptions None infos_a.
Proof.
  repeat split; try reflexivity.
  - exists [pkg_a]. split; vm_compute; reflexivity.
  - by left.
Qed.

Lemma version_proposal_found_or_created_witness :
  stepsSucceed primaryEnv entryOf versionOptions None infos_a
  ∧ fst (runVersion primaryEnv (memServer acme) entryOf byLevel versionOptions twoPulls)
    = Return 9
  ∧ fst (runVersion versionEnv (memServer acme) entryOf byLevel versionOptions emptyStore)
    = Return 1
  ∧ ∃ n s1 s2,
      runVersion primaryEnv (memServer acme) entryOf byLevel versionOptions twoPulls
      = (Return n, s1)
      ∧ runVersion primaryEnv (memServer acme) entryOf byLevel versionOptions s1
        = (Return n, s2)
      ∧ length (pulls s2) = length (pulls s1)
      ∧ n = 9.
Proof.
  split; [exact primaryEnv_steps|].
  split; [vm_compute; reflexivity|]. split; [vm_compute; reflexivity|].
  destruct (proj2 (proj2 (proj2 (version_proposal_found_or_created
                     primaryEnv entryOf byLevel
                     versionOptions None infos_a primaryEnv_steps))))
    with (s0 := twoPulls) as (n & s1 & s2 & H1 & H2 & _ & H3 & H4).
  - intros _. split; apply (bool_decide_unpack _); vm_compute; reflexivity.
  - exists n, s1, s2. repeat split; [done | done | done |].
    vm_compute in H4. tauto.
Defined.

(** * Further properties *)

(** ** What [createRelease] throws *)

Section CreateReleaseErrors.
Context {S : Type}.
Variables (env : Env) (api : Backend S).
Variable getChangelogEntry : jsstring -> jsstring -> option ChangelogEntry.

(** X1: whatever goes wrong in it, [createRelease] only ever throws an
    error that has a [code], and a code other than ["ENOENT"]: errors
    without a code are dropped by the [catch] block. *)
Theorem createRelease_throws_only_coded pkg tagName (s s' : S) (e : JsError) :
  createRelease env api getChangelogEntry pkg tagName s = (Throw e, s') →
  ∃ c, code e = Some c ∧ c ≠ js "ENOENT".
Proof.
  unfold createRelease.
  destruct (tryCreateRelease _ _ _ _ _ s) as [[[]|err] s1]; [done|].
  destruct (rethrown err) eqn:E; [|done].
  intros [= -> ->]. unfold rethrown in E.
  destruct (code e) as [c|]; [|done].
  exists c. split; [done|]. by apply negb_true_iff, bool_decide_eq_false in E.
Qed.

(** X2: on the alternate backend a refusal of the create-release
    request is not reported: the error made from the response has no
    [code], so [createRelease] returns normally. *)
Theorem createRelease_drops_http_failure pkg tagName changelog entry (s s' : S)
    (res : Response unit) :
  truthy (GITEA_API_URL env) = true →
  readFile env (path_join (dir pkg) (js "CHANGELOG.md")) = Return changelog →
  getChangelogEntry changelog (version (packageJson pkg)) = Some entry →
  fetch_create_release api (repoUrl env ++ js "/releases")
    {| release_name := tagName; release_tag_name := tagName;
       release_body := content entry;
       release_prerelease := includes (js "-") (version (packageJson pkg)) |} s
  = (res, s') →
  ok res = false →
  createRelease env api getChangelogEntry pkg tagName s = (Return tt, s').
Proof.
  intros Hgitea Hfile Hentry Hpost Hok.
  unfold createRelease, tryCreateRelease, bind, lift.
  by rewrite Hfile, Hentry, Hgitea, Hpost, Hok.
Qed.
End CreateReleaseErrors.

Lemma createRelease_throws_only_coded_witness :
  createRelease lockedEnv (memServer acme) entryOf pkg_a (packageTag pkg_a) emptyStore
  = (Throw denied, emptyStore)
  ∧ ∃ c, code denied = Some c ∧ c ≠ js "ENOENT".
Proof.
  split; [vm_compute; reflexivity|].
  apply (createRelease_throws_only_coded lockedEnv (memServer acme) entryOf
           pkg_a (packageTag pkg_a) emptyStore emptyStore denied).
  vm_compute. reflexivity.
Defined.

Lemma createRelease_drops_http_failure_witness :
  createRelease (workspace giteaUrl "pnpm" [pkg_a] [] changelogs) downServer
                entryOf pkg_a (packageTag pkg_a) emptyStore
  = (Return tt, emptyStore).
Proof.
  apply (createRelease_drops_http_failure
           (workspace giteaUrl "pnpm" [pkg_a] [] changelogs) downServer entryOf
           pkg_a (packageTag pkg_a) changelog_a
           {| content := LF ++ js "- fix" ++ LF; highestLevel := 0 |}
           emptyStore emptyStore (respond 500 "Internal Server Error" tt));
    vm_compute; reflexivity.
Defined.

(** ** Greedy repetition *)

Section Greedy.
Context {R : Type}.
Variable cls : N → bool.

Lemma plus_greedy_stops (t : jsstring) (k : jsstring → option R) :
  (t = [] ∨ ∃ c rest, t = c :: rest ∧ cls c = false) →
  plus_greedy cls t k = None.
Proof.
  intros [-> | (c & rest & -> & Hc)]; [done|]. simpl. by rewrite Hc.
Qed.

Lemma plus_greedy_none (t : jsstring) (k : jsstring → option R) :
  (∀ i, k (drop (S i) t) = None) → plus_greedy cls t k = None.
Proof.
  induction t as [|c t IH]; intros Hk; [done|]. simpl.
  destruct (cls c); [|done].
  rewrite IH; [exact (Hk 0%nat) | intros i; exact (Hk (S i))].
Qed.

Lemma plus_greedy_run (run t : jsstring) (k : jsstring → option R) (x : R) :
  Forall (fun c => cls c = true) run → run ≠ [] →
  plus_greedy cls t k = None → k t = Some x →
  plus_greedy cls (run ++ t) k = Some x.
Proof.
  intros Hrun Hne Hstop Hk. induction Hrun as [|c run Hc Hrun IH]; [done|].
  simpl. rewrite Hc. destruct run as [|c' run'].
  - simpl. by rewrite Hstop.
  - by rewrite IH.
Qed.

Lemma plus_greedy_inv (s : jsstring) (k : jsstring → option R) (x : R) :
  plus_greedy cls s k = Some x → ∃ rest, k rest = Some x.
Proof.
  induction s as [|c s IH]; [done|]. simpl. destruct (cls c); [|done].
  destruct (plus_greedy cls s k) as [y|] eqn:E.
  - intros [= ->]. by apply IH.
  - intros Hk. by exists s.
Qed.

Lemma plus_greedy_some (c : N) (s : jsstring) (k : jsstring → option R) :
  cls c = true → (∀ rest, is_Some (k rest)) →
  is_Some (plus_greedy cls (c :: s) k).
Proof.
  intros Hc Hk. simpl. rewrite Hc.
  destruct (plus_greedy cls s k); [by eexists | apply Hk].
Qed.
End Greedy.

(** ** Lines that announce a tag *)

Lemma take_prefix {A} (l t : list A) : take (length (l ++ t) - length t) (l ++ t) = l.
Proof.
  rewrite length_app.
  replace (length l + length t - length t)%nat with (length l) by lia.
  by rewrite take_app_length.
Qed.

Lemma no_at_later (v : jsstring) (i : nat) :
  64%N ∉ v → strip_prefix (js "@") (drop i v) = None.
Proof.
  intros Hv. destruct (drop i v) as [|c rest] eqn:E; [done|].
  cbn [strip_prefix js].
  destruct (N.eqb_spec (N_of_ascii "@") c) as [Hc|Hc]; [|done].
  vm_compute in Hc. subst c. exfalso. apply Hv. apply (subseteq_drop i v). rewrite E. apply elem_of_cons. by left.
Qed.

(** The part of the expression after the name: [@] and the version. *)
Lemma version_part (v : jsstring) (c1 : captures) :
  versionText v →
  ∃ m, rmatch (RSeq (RLit (js "@")) (RGroup 2 (RPlus not_space)))
              (js "@" ++ v) c1 (fun _ c => Some c) = Some m
       ∧ m !! 1%nat = c1 !! 1%nat.
Proof.
  intros (c & rest & -> & Hc). cbn [rmatch js app strip_prefix].
  rewrite N.eqb_refl.
  destruct (plus_greedy_some not_space c rest
              (fun rest0 => Some (<[2%nat := take (length (c :: rest) - length rest0)
                                                  (c :: rest)]> c1))) as [m Hm].
  - unfold not_space. by rewrite Hc.
  - intros ?. by eexists.
  - exists m. split; [exact Hm|].
    apply plus_greedy_inv in Hm as [rest0 [= <-]]. by rewrite lookup_insert_ne.
Qed.

Lemma announced_after (pre line : jsstring) :
  78%N ∉ pre →
  jsmatch newTagRegex (pre ++ line) = jsmatch newTagRegex line.
Proof.
  intros Hpre. induction pre as [|c pre IH]; [done|].
  apply not_elem_of_cons in Hpre as [Hc Hpre]. cbn [app].
  change (jsmatch newTagRegex (c :: pre ++ line))
    with (match rmatch newTagRegex (c :: pre ++ line) ∅ (fun _ c => Some c) with
          | Some m => Some m
          | None => jsmatch newTagRegex (pre ++ line)
          end).
  assert (rmatch newTagRegex (c :: pre ++ line) ∅ (fun _ c => Some c) = None) as ->.
  { cbn [rmatch newTagRegex js strip_prefix].
    destruct (N.eqb_spec (N_of_ascii "N") c) as [E|E]; [|done].
    by vm_compute in E. }
  by apply IH.
Qed.

Lemma strip_prefix_other (a c : N) (s : jsstring) :
  c ≠ a → strip_prefix [a] (c :: s) = None.
Proof. intros Hc. simpl. by destruct (N.eqb_spec a c) as [->|?]. Qed.

Lemma jsmatch_here (r : regex) (line : jsstring) (m : captures) :
  rmatch r line ∅ (fun _ c => Some c) = Some m → jsmatch r line = Some m.
Proof. intros Hm. destruct line; simpl; by rewrite Hm. Qed.

Section Unfold.
Context {R : Type}.
Implicit Types (k : jsstring → captures → option R).

Lemma rmatch_lit p s c k :
  rmatch (RLit p) s c k
  = match strip_prefix p s with Some rest => k rest c | None => None end.
Proof. reflexivity. Qed.

Lemma rmatch_plus cls s c k :
  rmatch (RPlus cls) s c k = plus_greedy cls s (fun rest => k rest c).
Proof. reflexivity. Qed.

Lemma rmatch_seq r1 r2 s c k :
  rmatch (RSeq r1 r2) s c k = rmatch r1 s c (fun rest c' => rmatch r2 rest c' k).
Proof. reflexivity. Qed.

Lemma rmatch_alt r1 r2 s c k :
  rmatch (RAlt r1 r2) s c k
  = match rmatch r1 s c k with Some x => Some x | None => rmatch r2 s c k end.
Proof. reflexivity. Qed.

Lemma rmatch_group i r s c k :
  rmatch (RGroup i r) s c k
  = rmatch r s c (fun rest c' => k rest (<[i := take (length s - length rest) s]> c')).
Proof. reflexivity. Qed.
End Unfold.

Lemma plain_tag_matches (ws n v : jsstring) :
  ws ≠ [] → Forall (fun c => is_space c = true) ws →
  plainName n → versionText v → 64%N ∉ v →
  ∃ m, rmatch newTagRegex (js "New tag:" ++ ws ++ n ++ js "@" ++ v) ∅
              (fun _ c => Some c) = Some m
       ∧ m !! 1%nat = Some n.
Proof.
  intros Hws Hspaces (Hn & c & rest & En & Hc & Hat) Hv Hnoat.
  destruct (version_part v (<[1%nat := n]> ∅) Hv) as (m & Hm & H1).
  exists m. split; [|by rewrite H1, lookup_insert_eq].
  unfold newTagRegex. rewrite rmatch_seq, rmatch_lit, strip_prefix_app.
  rewrite rmatch_seq, rmatch_plus.
  apply plus_greedy_run; [done | done | |].
  - apply plus_greedy_stops. right. exists c, (rest ++ js "@" ++ v).
    by rewrite En.
  - rewrite rmatch_seq, rmatch_group, rmatch_alt.
    rewrite rmatch_seq at 1. rewrite rmatch_lit.
    assert (strip_prefix (js "@") (n ++ js "@" ++ v) = None) as ->
      by (rewrite En; apply strip_prefix_other; done).
    rewrite rmatch_plus. apply plus_greedy_run.
    + done.
    + by rewrite En.
    + apply plus_greedy_none. intros i.
      rewrite rmatch_seq, rmatch_lit.
      change (drop (S i) (js "@" ++ v)) with (drop i v).
      by rewrite no_at_later.
    + by rewrite take_prefix.
Qed.

(** X3: a line the publish tool prints for a package with a plain
    name announces that name: after any text without a capital N,
    [New tag:] and some white space, the name, [@] and a version
    without [@] give back the name. *)
Theorem plain_tag_is_announced (pre ws n v : jsstring) :
  78%N ∉ pre → ws ≠ [] → Forall (fun c => is_space c = true) ws →
  plainName n → versionText v → 64%N ∉ v →
  announced (tagLine pre ws n v) = Some n.
Proof.
  intros Hpre Hws Hspaces Hn Hv Hnoat.
  destruct (plain_tag_matches ws n v) as (m & Hm & H1); [done..|].
  unfold announced, tagLine. rewrite announced_after by done.
  rewrite (jsmatch_here _ _ m Hm). by rewrite H1.
Qed.

Lemma plain_tag_is_announced_witness :
  announced (tagLine butterfly (js "  ") (js "pkg-a") (js "1.2.3")) = Some (js "pkg-a").
Proof.
  apply plain_tag_is_announced.
  - apply (bool_decide_unpack _). vm_compute. exact I.
  - discriminate.
  - repeat constructor.
  - split; [repeat constructor|]. eexists _, _. repeat split. discriminate.
  - eexists _, _. split; reflexivity.
  - apply (bool_decide_unpack _). vm_compute. exact I.
Defined.

Lemma scoped_tag_matches (ws scope n v : jsstring) :
  ws ≠ [] → Forall (fun c => is_space c = true) ws →
  scope ≠ [] → Forall (fun c => not_slash c = true) scope →
  n ≠ [] → Forall (fun c => not_at c = true) n →
  versionText v →
  ∃ m, rmatch newTagRegex
         (js "New tag:" ++ ws ++ (js "@" ++ scope ++ js "/" ++ n) ++ js "@" ++ v) ∅
         (fun _ c => Some c) = Some m
       ∧ m !! 1%nat = Some (js "@" ++ scope ++ js "/" ++ n).
Proof.
  intros Hws Hspaces Hscope Hnoslash Hn Hnoat Hv.
  destruct (version_part v (<[1%nat := js "@" ++ scope ++ js "/" ++ n]> ∅) Hv)
    as (m & Hm & H1).
  exists m. split; [|by rewrite H1, lookup_insert_eq].
  unfold newTagRegex. rewrite rmatch_seq, rmatch_lit, strip_prefix_app.
  rewrite rmatch_seq, rmatch_plus.
  apply plus_greedy_run; [done | done | |].
  - apply plus_greedy_stops. right. by eexists _, _.
  - rewrite rmatch_seq, rmatch_group, rmatch_alt.
    assert (rmatch (RSeq (RLit (js "@"))
                      (RSeq (RPlus not_slash) (RSeq (RLit (js "/")) (RPlus not_at))))
              ((js "@" ++ scope ++ js "/" ++ n) ++ js "@" ++ v) ∅
              (fun rest c' =>
                 rmatch (RSeq (RLit (js "@")) (RGroup 2 (RPlus not_space))) rest
                   (<[1%nat := take (length ((js "@" ++ scope ++ js "/" ++ n) ++ js "@" ++ v)
                                     - length rest)
                                    ((js "@" ++ scope ++ js "/" ++ n) ++ js "@" ++ v)]> c')
                   (fun _ c => Some c))
            = Some m) as ->; [|done].
    rewrite rmatch_seq, rmatch_lit.
    rewrite <- !app_assoc, strip_prefix_app.
    rewrite rmatch_seq, rmatch_plus.
    apply plus_greedy_run; [done | done | by apply plus_greedy_stops; right; eexists _, _ |].
    rewrite rmatch_seq, rmatch_lit, strip_prefix_app, rmatch_plus.
    apply plus_greedy_run; [done | done | by apply plus_greedy_stops; right; eexists _, _ |].
    rewrite <- Hm. f_equal. f_equal.
    rewrite !app_assoc. rewrite <- (app_assoc _ (js "@") v).
    apply take_prefix.
Qed.

(** X4: a line the publish tool prints for a scoped package announces
    the whole name: [@], the scope, [/] and the rest of the name, when
    the scope has no [/] and the rest no [@]. *)
Theorem scoped_tag_is_announced (pre ws scope n v : jsstring) :
  78%N ∉ pre → ws ≠ [] → Forall (fun c => is_space c = true) ws →
  scope ≠ [] → Forall (fun c => not_slash c = true) scope →
  n ≠ [] → Forall (fun c => not_at c = true) n →
  versionText v →
  announced (tagLine pre ws (js "@" ++ scope ++ js "/" ++ n) v)
  = Some (js "@" ++ scope ++ js "/" ++ n).
Proof.
  intros Hpre Hws Hspaces Hscope Hnoslash Hn Hnoat Hv.
  destruct (scoped_tag_matches ws scope n v) as (m & Hm & H1); [done..|].
  unfold announced, tagLine. rewrite announced_after by done.
  rewrite (jsmatch_here _ _ m Hm). by rewrite H1.
Qed.

Lemma scoped_tag_is_announced_witness :
  announced (tagLine butterfly (js "  ") (js "@" ++ js "scope" ++ js "/" ++ js "pkg-b")
                     (js "0.0.1"))
  = Some (js "@scope/pkg-b").
Proof.
  apply (scoped_tag_is_announced butterfly (js "  ") (js "scope") (js "pkg-b") (js "0.0.1")).
  - apply (bool_decide_unpack _). vm_compute. exact I.
  - discriminate.
  - repeat constructor.
  - discriminate.
  - repeat constructor.
  - discriminate.
  - repeat constructor.
  - eexists _, _. split; reflexivity.
Defined.

Lemma regex_starts_with_marker (line : jsstring) :
  is_Some (rmatch newTagRegex line ∅ (fun _ c => Some c)) →
  is_Some (strip_prefix (js "New tag:") line).
Proof.
  unfold newTagRegex. rewrite rmatch_seq, rmatch_lit.
  destruct (strip_prefix (js "New tag:") line); [by eexists | by intros [? ?]].
Qed.

(** X5: a line that announces a tag in a multi-package workspace
    contains the marker a single-package workspace looks for. *)
Theorem announcing_line_has_marker (line : jsstring) :
  is_Some (announced line) → includes (js "New tag:") line = true.
Proof.
  unfold announced. intros Hline.
  assert (is_Some (jsmatch newTagRegex line)) as Hm
    by (destruct (jsmatch newTagRegex line); [by eexists | by destruct Hline]).
  clear Hline. induction line as [|c line IH].
  - simpl in Hm. by destruct Hm.
  - change (jsmatch newTagRegex (c :: line))
      with (match rmatch newTagRegex (c :: line) ∅ (fun _ c => Some c) with
            | Some m => Some m
            | None => jsmatch newTagRegex line
            end) in Hm.
    change (includes (js "New tag:") (c :: line))
      with (match strip_prefix (js "New tag:") (c :: line) with
            | Some _ => true
            | None => includes (js "New tag:") line
            end).
    destruct (rmatch newTagRegex (c :: line) ∅ _) as [m|] eqn:E.
    + destruct (regex_starts_with_marker (c :: line)) as [rest ->]; [|done].
      rewrite E. by eexists.
    + destruct (strip_prefix _ _); [done | by apply IH].
Qed.

Lemma announcing_line_has_marker_witness :
  includes (js "New tag:") (js "New tag: @scope/pkg-b@0.0.1") = true
  ∧ announced (js "New tag: v1.0.0 created") = None
  ∧ includes (js "New tag:") (js "New tag: v1.0.0 created") = true.
Proof.
  split; [|split; vm_compute; reflexivity].
  apply announcing_line_has_marker. vm_compute. by eexists.
Defined.

(** ** Scanning what was printed *)

Lemma distinct_names_inj (packages : list Package) (p q : Package) :
  NoDup ((fun pkg => name (packageJson pkg)) <$> packages) →
  p ∈ packages → q ∈ packages →
  name (packageJson p) = name (packageJson q) → p = q.
Proof.
  induction packages as [|x packages IH]; intros Hnd Hp Hq Hname.
  - by apply elem_of_nil in Hp.
  - rewrite fmap_cons in Hnd. apply NoDup_cons in Hnd as [Hx Hnd].
    apply elem_of_cons in Hp as [->|Hp]; apply elem_of_cons in Hq as [->|Hq].
    + done.
    + exfalso. apply Hx. rewrite Hname.
      by apply (list_elem_of_fmap_2 (fun pkg => name (packageJson pkg))).
    + exfalso. apply Hx. rewrite <- Hname.
      by apply (list_elem_of_fmap_2 (fun pkg => name (packageJson pkg))).
    + by apply IH.
Qed.

Lemma packagesByName_distinct (packages : list Package) (pkg : Package) :
  NoDup ((fun pkg => name (packageJson pkg)) <$> packages) →
  pkg ∈ packages →
  packagesByName packages !! name (packageJson pkg) = Some pkg.
Proof.
  intros Hnd Hin.
  destruct (packagesByName packages !! name (packageJson pkg)) as [q|] eqn:E.
  - apply packagesByName_Some in E as [Hq Hname]. f_equal.
    by apply (distinct_names_inj packages).
  - apply packagesByName_None in E. exfalso. apply E.
    by apply (list_elem_of_fmap_2 (fun pkg => name (packageJson pkg))).
Qed.

(** X6: when the packages of the workspace have distinct names, the
    scan gives back the packages whose tags were printed, in the order
    and number of the lines, whatever lines announce them. *)
Theorem scan_returns_printed_packages (packages released : list Package)
    (line : Package → jsstring) :
  NoDup ((fun pkg => name (packageJson pkg)) <$> packages) →
  Forall (fun pkg => pkg ∈ packages
                     ∧ announced (line pkg) = Some (name (packageJson pkg)))
         released →
  scanTags (packagesByName packages) (map line released) [] = Return released.
Proof.
  intros Hnd. induction 1 as [|pkg released [Hin Hline] _ IH]; [done|].
  cbn [map]. rewrite scanTags_cons, Hline, packagesByName_distinct by done.
  by rewrite IH.
Qed.

Lemma scan_returns_printed_packages_witness :
  scanTags (packagesByName [pkg_a; pkg_b]) (map printed [pkg_b; pkg_a; pkg_a]) []
  = Return [pkg_b; pkg_a; pkg_a].
Proof.
  apply scan_returns_printed_packages.
  - apply (bool_decide_unpack _). vm_compute. exact I.
  - repeat constructor;
      try (apply (bool_decide_unpack _); vm_compute; exact I);
      vm_compute; reflexivity.
Defined.

(** ** What [runPublish] reports *)

Lemma scanTags_elems (packages : list Package) (lines : list jsstring)
    (released : list Package) :
  scanTags (packagesByName packages) lines [] = Return released →
  Forall (fun pkg => pkg ∈ packages) released.
Proof.
  revert released. induction lines as [|line lines IH]; intros released.
  - intros [= <-]. constructor.
  - rewrite scanTags_cons. destruct (announced line) as [n|]; [|apply IH].
    destruct (packagesByName packages !! n) as [pkg|] eqn:E; [|done].
    destruct (scanTags _ lines []) as [rest|]; [|done].
    intros [= <-]. constructor; [by apply packagesByName_Some in E as [? _] | by apply IH].
Qed.

Section PublishReport.
Context {S : Type}.
Variables (env : Env) (api : Backend S).
Variable getChangelogEntry : jsstring -> jsstring -> option ChangelogEntry.

Lemma scanMarker_result cgr pkg (lines : list jsstring) (s s' : S) released :
  scanMarker env api getChangelogEntry cgr pkg lines s = (Return released, s') →
  released = [] ∨ released = [pkg].
Proof.
  revert s. induction lines as [|line lines IH]; intros s; simpl.
  - intros [= <- _]. by left.
  - destruct (jsmatch newTagMarker line); [|apply IH].
    unfold bind, ret. destruct (when _ _ s) as [[[]|e] s1]; [|done].
    intros [= <- _]. by right.
Qed.

Lemma publishResult_Published (released : list Package) l :
  publishResult released = Published l → released ≠ [] ∧ l = map summary released.
Proof. destruct released; [done|]. by intros [= <-]. Qed.

Lemma runPublish_Published o (s s' : S) l :
  runPublish env api getChangelogEntry o s = (Return (Published l), s') →
  l ≠ []
  ∧ ∃ packages tool,
      getPackages env = Return (packages, tool)
      ∧ Forall (fun x => ∃ pkg, pkg ∈ packages ∧ x = summary pkg) l.
Proof.
  unfold runPublish, bind, lift.
  destruct (getExecOutput env (publish_script o)) as [stdout|]; [|done].
  destruct (pushTags env) as [[]|]; [|done].
  destruct (getPackages env) as [[packages tool]|]; [|done].
  assert (∀ released, released ≠ [] → Forall (fun pkg => pkg ∈ packages) released →
            map summary released ≠ []
            ∧ ∃ packages0 tool0,
                Return (packages, tool) = Return (packages0, tool0)
                ∧ Forall (fun x => ∃ pkg, pkg ∈ packages0 ∧ x = summary pkg)
                         (map summary released)) as Hdone.
  { intros released Hne Hall. split; [by destruct released|].
    exists packages, tool. split; [done|].
    apply Forall_fmap. eapply Forall_impl; [exact Hall|].
    intros pkg Hpkg. by exists pkg. }
  destruct (negb (isRoot tool)).
  - destruct (scanTags _ _ []) as [released|] eqn:Escan; [|done].
    unfold ret at 1.
    destruct (when _ _ s) as [[[]|] s1]; [|done].
    unfold ret. intros [= Hres _].
    apply publishResult_Published in Hres as [Hne ->].
    apply Hdone; [done | by eapply scanTags_elems].
  - destruct packages as [|pkg others]; [done|].
    destruct (scanMarker _ _ _ _ _ _ s) as [[released|] s1] eqn:Escan; [|done].
    unfold ret. intros [= Hres _].
    apply publishResult_Published in Hres as [Hne ->].
    apply Hdone; [done|].
    apply scanMarker_result in Escan as [->| ->]; [done|].
    constructor; [apply elem_of_cons; by left | constructor].
Qed.

(** X7: when [runPublish] reports [published: true] the list it
    gives is not empty, and every entry is the name and the version,
    as [package.json] has them, of a package of the workspace. *)
Theorem runPublish_reports_workspace_packages o (s s' : S) l :
  runPublish env api getChangelogEntry o s = (Return (Published l), s') →
  l ≠ []
  ∧ ∃ packages tool,
      getPackages env = Return (packages, tool)
      ∧ Forall (fun x => ∃ pkg, pkg ∈ packages ∧ x = summary pkg) l.
Proof. apply runPublish_Published. Qed.
End PublishReport.

Lemma runPublish_reports_workspace_packages_witness :
  runPublish (workspace None "pnpm" [pkg_a; pkg_b] (js "New tag: pkg-a@9.9.9") ∅)
             (memServer acme) entryOf releaseAll emptyStore
  = (Return (Published [summary pkg_a]), emptyStore)
  ∧ published_version (summary pkg_a) = js "1.2.3"
  ∧ [summary pkg_a] ≠ [].
Proof.
  split; [vm_compute; reflexivity|]. split; [reflexivity|].
  apply (runPublish_reports_workspace_packages
           (workspace None "pnpm" [pkg_a; pkg_b] (js "New tag: pkg-a@9.9.9") ∅)
           (memServer acme) entryOf releaseAll emptyStore emptyStore).
  vm_compute. reflexivity.
Defined.

(** ** Runs of [runVersion] that fail *)

Section VersionFailure.
Variables (env : Env) (repo : jsstring).
Variable getChangelogEntry : jsstring -> jsstring -> option ChangelogEntry.
Variable sortTheThings : PackageInfo -> PackageInfo -> Z.

Lemma mem_update_throws n t b (s s' : Store) e :
  updatePullRequest env (memServer repo) n t b s = (Throw e, s') → s' = s.
Proof.
  unfold updatePullRequest.
  destruct (truthy _); cbn; destruct (stored n (pulls s)); cbn;
    intros [= ]; congruence.
Qed.

Lemma mem_reconcile_throws items b h t body (s s' : Store) e :
  reconcile env (memServer repo) items b h t body s = (Throw e, s') → s' = s.
Proof.
  unfold reconcile, bind. destruct items as [|pr rest].
  - by rewrite mem_create.
  - destruct (updatePullRequest _ _ _ _ _ s) as [[x|e'] s1] eqn:E; [done|].
    intros [= _ <-]. by eapply mem_update_throws.
Qed.

(** X8: against a backend that keeps the proposals, a run of
    [runVersion] that fails has created and updated nothing: whatever
    step throws, the proposals are as they were. *)
Theorem failed_version_run_changes_nothing o (s s' : Store) e :
  runVersion env (memServer repo) getChangelogEntry sortTheThings o s = (Throw e, s') →
  s' = s.
Proof.
  unfold runVersion, bind, lift, start. cbv zeta.
  pose proof (mem_search_state env repo
                (context_owner env ++ js "/" ++ context_repo env)
                (versionBranchOf (baseBranch env o)) (baseBranch env o) s) as Hs.
  destruct (issuesAndPullRequests env (memServer repo) _ _ _ s) as [found s1].
  cbn [snd] in Hs. subst s1.
  destruct (readChangesetState env) as [preState|]; [|congruence].
  destruct (switchToMaybeExistingBranch env _) as [[]|]; [|congruence].
  destruct (reset env) as [[]|]; [|congruence].
  destruct (getVersionsByDirectory env) as [[]|]; [|congruence].
  destruct (exec env _) as [[]|]; [|congruence].
  destruct (getChangedPackages env) as [changed|]; [|congruence].
  destruct (checkIfClean env) as [clean|]; [|congruence].
  assert (∀ A (k : unit → M Store A) x,
            (let (o0, s'0) := when (negb clean) (fun s0 => (commitAll env x, s0)) s in
             match o0 with
             | Return a => k a s'0
             | Throw e0 => (Throw e0, s'0)
             end) = (Throw e, s') →
            s' = s ∨ k tt s = (Throw e, s')) as Hcommit.
  { intros A k x. unfold when, ret. destruct (negb clean).
    - destruct (commitAll env x) as [[]|]; [by right | left; congruence].
    - by right. }
  intros [?|Hrest]%Hcommit; [done|]. revert Hrest.
  destruct (push env _) as [[]|]; [|congruence].
  destruct found as [items|]; [|congruence].
  destruct (allInfo _ _ changed) as [infos|]; [|congruence].
  apply mem_reconcile_throws.
Qed.
End VersionFailure.

Lemma failed_version_run_changes_nothing_witness :
  ∃ e, runVersion bareEnv (memServer acme) entryOf byLevel versionOptions busyStore
       = (Throw e, busyStore).
Proof.
  destruct (runVersion bareEnv (memServer acme) entryOf byLevel versionOptions busyStore)
    as [[n|e] s'] eqn:E; [vm_compute in E; discriminate|].
  exists e. f_equal.
  exact (failed_version_run_changes_nothing bareEnv acme entryOf byLevel
           versionOptions busyStore s' e E).
Defined.

Section VersionChangelogs.
Context {S : Type}.
Variables (env : Env) (api : Backend S).
Variable getChangelogEntry : jsstring -> jsstring -> option ChangelogEntry.
Variable sortTheThings : PackageInfo -> PackageInfo -> Z.

Lemma allInfo_throws (changed : list Package) :
  Exists (fun pkg => ∀ info, packageInfo env getChangelogEntry pkg ≠ Return info)
         changed →
  ∃ e, allInfo env getChangelogEntry changed = Throw e
       ∧ Exists (fun pkg => packageInfo env getChangelogEntry pkg = Throw e) changed.
Proof.
  induction changed as [|pkg changed IH]; intros Hex; [by apply Exists_nil in Hex|].
  cbn [allInfo].
  destruct (packageInfo env getChangelogEntry pkg) as [info|e] eqn:E.
  - apply Exists_cons in Hex as [Hpkg|Hex]; [by destruct (Hpkg info)|].
    destruct (IH Hex) as (e & -> & Hin). exists e. split; [done|].
    by apply Exists_cons_tl.
  - exists e. split; [done|]. by apply Exists_cons_hd.
Qed.

(** X9: unlike [createRelease], [runVersion] needs the changelog of
    every changed package. When the [CHANGELOG.md] of one of them
    cannot be read, a run whose steps up to the push succeed returns
    no proposal number, whatever the search found or failed with, and
    no proposal is created or updated: the state of the backend is the
    one the search left. *)
Theorem version_run_needs_changelogs o preState changed found (s s1 : S) :
  pushed env o preState changed →
  issuesAndPullRequests env api (context_owner env ++ js "/" ++ context_repo env)
    (versionBranchOf (baseBranch env o)) (baseBranch env o) s = (found, s1) →
  Exists (fun pkg => ∃ e, readFile env (path_join (dir pkg) (js "CHANGELOG.md"))
                          = Throw e)
         changed →
  (∀ n, fst (runVersion env api getChangelogEntry sortTheThings o s) ≠ Return n)
  ∧ snd (runVersion env api getChangelogEntry sortTheThings o s) = s1.
Proof.
  intros (Hpre & Hswitch & Hreset & Hversions & Hexec & Hchanged & Hclean & Hpush)
         Hsearch Hex.
  destruct (allInfo_throws changed) as (e & Hinfos & _).
  { eapply Exists_impl; [exact Hex|]. intros pkg [e He] info.
    unfold packageInfo. by rewrite He. }
  assert (runVersion env api getChangelogEntry sortTheThings o s
          = (match found with Return _ => Throw e | Throw e' => Throw e' end, s1))
    as ->.
  { unfold runVersion, bind, lift, start. cbv zeta.
    rewrite Hpre, Hswitch, Hreset, Hversions, Hexec, Hsearch, Hchanged.
    destruct Hclean as [-> | [-> Hcommit]]; cbn [negb when].
    - unfold ret at 1. rewrite Hpush. destruct found; [by rewrite Hinfos|done].
    - unfold lift. rewrite Hcommit, Hpush. destruct found; [by rewrite Hinfos|done]. }
  split; [|done]. intros n. by destruct found.
Qed.
End VersionChangelogs.

Lemma bareEnv_pushed : pushed bareEnv versionOptions None [pkg_a].
Proof. repeat split; try reflexivity. by left. Qed.

Lemma version_run_needs_changelogs_witness :
  (∀ n, fst (runVersion bareEnv (memServer acme) entryOf byLevel versionOptions
               emptyStore) ≠ Return n)
  ∧ snd (runVersion bareEnv (memServer acme) entryOf byLevel versionOptions emptyStore)
    = emptyStore.
Proof.
  apply (version_run_needs_changelogs bareEnv (memServer acme) entryOf byLevel
           versionOptions None [pkg_a] (Return []) emptyStore emptyStore
           bareEnv_pushed).
  - vm_compute. reflexivity.
  - apply Exists_cons_hd. eexists. vm_compute. reflexivity.
Defined.

(** ** The size and the start of the body *)

Lemma messageHeader_length h (b : jsstring) :
  jslength (messageHeader h b) = (if h then 328 else 402) + jslength b.
Proof.
  unfold messageHeader, jslength. rewrite !length_app.
  destruct h; rewrite !Nat2Z.inj_add; vm_compute (length (js _));
    vm_compute (length LF); lia.
Qed.

Lemma messagePrestate_length p (b : jsstring) :
  jslength (messagePrestate p b) ≤ 185 + 2 * jslength b.
Proof.
  unfold messagePrestate, jslength. destruct p; [|simpl; lia].
  rewrite !length_app, !Nat2Z.inj_add.
  vm_compute (length warningSigns). vm_compute (length LF).
  vm_compute (length BACKTICK). vm_compute (length (js _)). lia.
Qed.

Lemma bareMessage_length h p (b : jsstring) :
  jslength (bareMessage h p b) ≤ 702 + 3 * jslength b.
Proof.
  pose proof (messageHeader_length h b) as Hh.
  pose proof (messagePrestate_length p b) as Hp.
  unfold bareMessage, preamble, jslength in *. cbn [app join].
  rewrite !length_app, !Nat2Z.inj_add.
  vm_compute (length LF). vm_compute (length messageReleasesHeading).
  vm_compute (length allOmitted). destruct h; lia.
Qed.

Lemma body_fits h p b (infos : list PackageInfo) (max : Z) :
  jslength (bareMessage h p b) ≤ max →
  jslength (getVersionPrBody h p b infos max) ≤ max.
Proof.
  intros Hbare. unfold getVersionPrBody. cbv zeta.
  destruct (Z.gtb_spec (jslength (rawMessage h p b infos)) max);
    match goal with
    | |- context [jslength ?m >? max] => destruct (Z.gtb_spec (jslength m) max)
    end; lia.
Qed.

(** X10: for a branch name of at most 19766 code units the body made
    with the default limit has at most 60000 code units, whatever the
    changed packages and their changelogs are. *)
Theorem body_within_default_limit h p b (infos : list PackageInfo) :
  jslength b ≤ 19766 →
  jslength (getVersionPrBody h p b infos MAX_CHARACTERS_PER_MESSAGE)
  ≤ MAX_CHARACTERS_PER_MESSAGE.
Proof.
  intros Hb. apply body_fits.
  pose proof (bareMessage_length h p b). unfold MAX_CHARACTERS_PER_MESSAGE. lia.
Qed.

Lemma join_app_blocks (sep : jsstring) (l1 l2 : list jsstring) :
  l1 ≠ [] →
  join sep (l1 ++ l2) = join sep l1 ++ concat (map (fun x => sep ++ x) l2).
Proof.
  induction l1 as [|p l1 IH]; [done|]. intros _.
  destruct l1 as [|q l1].
  - cbn [app]. clear IH. destruct l2 as [|x l2]; [by rewrite app_nil_r|].
    change (join sep (p :: x :: l2)) with (p ++ sep ++ join sep ([x] ++ l2)).
    revert x. induction l2 as [|y l2 IH2]; intros x.
    + cbn. by rewrite !app_nil_r.
    + change (join sep ([x] ++ y :: l2)) with (x ++ sep ++ join sep ([y] ++ l2)).
      specialize (IH2 y). cbn [join map concat app] in *.
      apply (f_equal (fun z => drop (length p) z)) in IH2.
      rewrite !drop_app_length in IH2. rewrite IH2.
      by rewrite <- !app_assoc.
  - change (join sep ((p :: q :: l1) ++ l2)) with (p ++ sep ++ join sep ((q :: l1) ++ l2)).
    rewrite IH by done.
    change (join sep (p :: q :: l1)) with (p ++ sep ++ join sep (q :: l1)).
    by rewrite <- !app_assoc.
Qed.

(** X11: every body starts with the same three parts joined by line
    feeds: the explanatory header, the pre-release block (empty when
    there is no pre-release state) and the [# Releases] heading; when
    nothing was left out, the blocks of the packages follow, each after
    a line feed. *)
Theorem body_starts_with_preamble h p b (infos : list PackageInfo) (max : Z) :
  (∃ rest, getVersionPrBody h p b infos max
           = messageHeader h b ++ LF ++ messagePrestate p b ++ LF
             ++ messageReleasesHeading ++ rest)
  ∧ (jslength (rawMessage h p b infos) ≤ max →
     getVersionPrBody h p b infos max
     = messageHeader h b ++ LF ++ messagePrestate p b ++ LF
       ++ messageReleasesHeading
       ++ concat (map (fun info => LF ++ info_header info ++ LF ++ LF ++ info_content info)
                      infos)).
Proof.
  assert (∀ blocks, join LF (preamble h p b ++ blocks)
            = messageHeader h b ++ LF ++ messagePrestate p b ++ LF
              ++ messageReleasesHeading ++ concat (map (fun x => LF ++ x) blocks)) as Hjoin.
  { intros blocks. rewrite join_app_blocks by done. unfold preamble. cbn [join].
    by rewrite <- !app_assoc. }
  split.
  - unfold getVersionPrBody. cbv zeta.
    destruct (Z.gtb_spec (jslength (rawMessage h p b infos)) max);
      match goal with
      | |- context [jslength ?m >? max] => destruct (Z.gtb_spec (jslength m) max)
      end; unfold bareMessage, headersMessage, rawMessage;
      rewrite Hjoin; by eexists.
  - intros Hfits. unfold getVersionPrBody. cbv zeta.
    destruct (Z.gtb_spec (jslength (rawMessage h p b infos)) max); [lia|].
    destruct (Z.gtb_spec (jslength (rawMessage h p b infos)) max); [lia|].
    unfold rawMessage. rewrite Hjoin. do 5 f_equal.
    rewrite map_map. done.
Qed.

Lemma body_within_default_limit_witness :
  jslength (getVersionPrBody false (Some {| tag := js "next" |}) (js "main")
              (replicate 1000 (longChange "pkg-a")) MAX_CHARACTERS_PER_MESSAGE)
  ≤ MAX_CHARACTERS_PER_MESSAGE.
Proof. apply body_within_default_limit. vm_compute. discriminate. Defined.

(** ** The base branch *)

Lemma remove_first_unfold (p s : jsstring) :
  remove_first p s
  = match strip_prefix p s with
    | Some rest => rest
    | None => match s with [] => [] | c :: s' => c :: remove_first p s' end
    end.
Proof. by destruct s. Qed.

Lemma includes_unfold (p s : jsstring) :
  includes p s
  = match strip_prefix p s with
    | Some _ => true
    | None => match s with [] => false | _ :: s' => includes p s' end
    end.
Proof. by destruct s. Qed.

Lemma remove_first_absent (p s : jsstring) :
  includes p s = false → remove_first p s = s.
Proof.
  induction s as [|c s IH]; rewrite includes_unfold, remove_first_unfold;
    destruct (strip_prefix p _); try done.
  intros Hs. by rewrite IH.
Qed.

(** X12: the base branch of a run is the [branch] option when it is
    given; otherwise it is the ref of the event without its first
    [refs/heads/]: the name of the branch for a branch ref, and the
    whole ref when it has no [refs/heads/] in it, as for a tag. The
    head branch is [changeset-release/] followed by that base. *)
Theorem base_branch_of_ref (env : Env) (o : VersionOptions) (b : jsstring) :
  (branch o = Some b → baseBranch env o = b)
  ∧ (branch o = None → context_ref env = js "refs/heads/" ++ b →
     baseBranch env o = b
     ∧ versionBranchOf (baseBranch env o) = js "changeset-release/" ++ b)
  ∧ (branch o = None → includes (js "refs/heads/") (context_ref env) = false →
     baseBranch env o = context_ref env).
Proof.
  unfold baseBranch. split; [by intros ->|]. split.
  - intros -> ->. rewrite remove_first_unfold, strip_prefix_app. done.
  - intros ->. apply remove_first_absent.
Qed.

Lemma base_branch_of_ref_witness :
  baseBranch versionEnv versionOptions = js "main"
  ∧ baseBranch (withRef versionEnv (js "refs/tags/v1.0.0")) versionOptions
    = js "refs/tags/v1.0.0".
Proof.
  split.
  - apply (proj1 (proj2 (base_branch_of_ref versionEnv versionOptions (js "main"))));
      reflexivity.
  - apply (proj2 (proj2 (base_branch_of_ref (withRef versionEnv (js "refs/tags/v1.0.0"))
                           versionOptions []))); reflexivity.
Defined.

(** ** Runs of [runRelease] *)

Section ReleaseRuns.
Variables (env : Env) (repo : jsstring).
Variable getChangelogEntry : jsstring -> jsstring -> option ChangelogEntry.

Lemma mem_createRelease pkg tagName (s : Store) :
  documented env getChangelogEntry pkg →
  ∃ params, release_tag_name params = tagName
    ∧ createRelease env (memServer repo) getChangelogEntry pkg tagName s
      = (Return tt, addRelease params s).
Proof.
  intros (changelog & entry & Hfile & Hentry).
  eexists {| release_name := tagName; release_tag_name := tagName;
             release_body := content entry;
             release_prerelease := includes (js "-") (version (packageJson pkg)) |}.
  split; [done|].
  unfold createRelease, tryCreateRelease, bind, lift. rewrite Hfile, Hentry.
  by destruct (truthy _).
Qed.

Lemma mem_release_all (l : list Package) (s : Store) :
  Forall (documented env getChangelogEntry) l →
  ∃ s1, Promise_all (map (fun pkg => createRelease env (memServer repo)
                                       getChangelogEntry pkg (packageTag pkg)) l) s
        = (Return tt, s1)
        ∧ tag_name <$> releases s1 = (tag_name <$> releases s) ++ (packageTag <$> l).
Proof.
  revert s. induction l as [|pkg l IH]; intros s Hall.
  - exists s. split; [done|]. by rewrite app_nil_r.
  - apply Forall_cons in Hall as [Hpkg Hall].
    destruct (mem_createRelease pkg (packageTag pkg) s Hpkg) as (params & Htag & Hrun).
    destruct (IH (addRelease params s) Hall) as (s1 & Hrest & Htags).
    exists s1. cbn [map Promise_all]. rewrite Hrun, Hrest. split; [done|].
    rewrite Htags. cbn [addRelease releases]. rewrite fmap_app. cbn.
    rewrite Htag. by rewrite <- app_assoc.
Qed.

Lemma mem_runRelease o out packages tool (s : Store) :
  truthy (GITEA_API_URL env) = true →
  getExecOutput env (release_script o) = Return out →
  pushTags env = Return tt →
  getPackages env = Return (packages, tool) →
  ¬ (tool = js "root" ∧ packages = []) →
  runRelease env (memServer repo) getChangelogEntry o s
  = (when (release_createGithubReleases o)
       (Promise_all
          (map (fun pkg => createRelease env (memServer repo) getChangelogEntry
                             pkg (packageTag pkg))
               (filter (fun pkg => packageTag pkg ∉ tag_name <$> releases s)
                       (releasable packages)))) ;;
     ret (releasedResult
            (filter (fun pkg => packageTag pkg ∉ tag_name <$> releases s)
                    (releasable packages)))) s.
Proof.
  intros Hgitea Hout Htags Hpkgs Hnot.
  assert (isRoot tool && bool_decide (packages = []) = false) as Hroot.
  { apply andb_false_iff. unfold isRoot.
    destruct (decide (tool = js "root")) as [->|?];
      [right | left]; apply bool_decide_eq_false; [|done].
    intros ->. by apply Hnot. }
  unfold runRelease, bind, lift. rewrite Hout, Htags, Hpkgs, Hgitea, Hroot.
  assert ((match release_script o with
           | [] => ret tt
           | _ :: _ => fun s0 : Store => ret tt s0
           end) s = (Return tt, s)) as ->
    by (by destruct (release_script o)).
  destruct (releasable packages) as [|pkg0 rest] eqn:E.
  - rewrite filter_nil. by destruct (release_createGithubReleases o).
  - change (fetch_releases (memServer repo) (repoUrl env ++ js "/releases") s)
      with (respond 200 "OK" (releases s), s).
    cbv beta iota. change (ok (respond 200 "OK" (releases s))) with true.
    cbv beta iota. change (json (respond 200 "OK" (releases s))) with (releases s).
    unfold ret at 1. rewrite unreleased_filter.
    by destruct (when _ _ s) as [[[]|e] s''].
Qed.

(** X13: on the alternate backend, when releases are created and every
    package to release has its changelog entry, a second run of
    [runRelease] finds the releases of the first one: it reports
    [released: false] and creates nothing. *)
Theorem second_release_run_reports_nothing o out packages tool (s : Store) :
  truthy (GITEA_API_URL env) = true →
  release_createGithubReleases o = true →
  getExecOutput env (release_script o) = Return out →
  pushTags env = Return tt →
  getPackages env = Return (packages, tool) →
  ¬ (tool = js "root" ∧ packages = []) →
  Forall (documented env getChangelogEntry) (releasable packages) →
  ∃ r s1,
    runRelease env (memServer repo) getChangelogEntry o s = (Return r, s1)
    ∧ runRelease env (memServer repo) getChangelogEntry o s1 = (Return NotReleased, s1).
Proof.
  intros Hgitea Hcreate Hout Htags Hpkgs Hnot Hdoc.
  rewrite (mem_runRelease o out packages tool s) by done.
  set (toRelease := filter (fun pkg => packageTag pkg ∉ tag_name <$> releases s)
                           (releasable packages)).
  destruct (mem_release_all toRelease s) as (s1 & Hall & Hnames).
  { apply Forall_forall. intros pkg [_ Hin]%list_elem_of_filter.
    by eapply Forall_forall in Hdoc. }
  exists (releasedResult toRelease), s1. rewrite Hcreate. cbn [when].
  unfold bind at 1. rewrite Hall. split; [done|].
  rewrite (mem_runRelease o out packages tool s1) by done.
  assert (filter (fun pkg => packageTag pkg ∉ tag_name <$> releases s1)
                 (releasable packages) = []) as ->.
  { destruct (filter (fun pkg => packageTag pkg ∉ tag_name <$> releases s1)
                     (releasable packages)) as [|x l'] eqn:E; [done|]. exfalso.
    assert (x ∈ filter (fun pkg => packageTag pkg ∉ tag_name <$> releases s1)
                       (releasable packages)) as [Hx Hin]%list_elem_of_filter
      by (rewrite E; apply elem_of_cons; by left).
    apply Hx. rewrite Hnames. apply elem_of_app.
    destruct (decide (packageTag x ∈ tag_name <$> releases s)) as [?|Hnew];
      [by left | right].
    apply (list_elem_of_fmap_2 packageTag). by apply list_elem_of_filter. }
  by rewrite Hcreate.
Qed.
End ReleaseRuns.

Lemma second_release_run_reports_nothing_witness :
  fst (runRelease releaseEnv (memServer acme) entryOf releaseOptions busyStore)
  = Return (Released [summary pkg_b])
  ∧ ∃ r s1,
      runRelease releaseEnv (memServer acme) entryOf releaseOptions busyStore
      = (Return r, s1)
      ∧ runRelease releaseEnv (memServer acme) entryOf releaseOptions s1
        = (Return NotReleased, s1).
Proof.
  split; [vm_compute; reflexivity|].
  apply (second_release_run_reports_nothing releaseEnv acme entryOf releaseOptions
           [] [pkg_a; pkg_b; pkg_private] (js "pnpm") busyStore);
    try reflexivity.
  - intros [Htool _]. vm_compute in Htool. discriminate.
  - change (releasable [pkg_a; pkg_b; pkg_private]) with [pkg_a; pkg_b].
    repeat constructor; eexists _, _; split; vm_compute; reflexivity.
Defined.

Section NothingToRelease.
Context {S : Type}.
Variables (env : Env) (api : Backend S).
Variable getChangelogEntry : jsstring -> jsstring -> option ChangelogEntry.

(** X14: when every package of the workspace is private, [runRelease]
    asks the backend nothing, on either of them: it does not list the
    releases, creates none and reports [released: false]. *)
Theorem release_run_without_releasable o out packages tool (s : S) :
  getExecOutput env (release_script o) = Return out →
  pushTags env = Return tt →
  getPackages env = Return (packages, tool) →
  packages ≠ [] →
  Forall (fun pkg => private (packageJson pkg) = true) packages →
  runRelease env api getChangelogEntry o s = (Return NotReleased, s).
Proof.
  intros Hout Htags Hpkgs Hne Hprivate.
  assert (releasable packages = []) as Hnone.
  { unfold releasable. clear Hpkgs Hne.
    induction Hprivate as [|pkg l Hpkg _ IH]; [done|].
    rewrite filter_cons, decide_False by congruence. exact IH. }
  unfold runRelease, bind, lift. rewrite Hout, Htags, Hpkgs, Hnone.
  rewrite (bool_decide_false _ Hne), andb_false_r.
  by destruct (release_script o).
Qed.
End NothingToRelease.

Lemma release_run_without_releasable_witness :
  runRelease privateOnly downServer entryOf releaseOptions emptyStore
  = (Return NotReleased, emptyStore).
Proof.
  apply (release_run_without_releasable privateOnly downServer entryOf releaseOptions
           [] [pkg_private] (js "pnpm") emptyStore); try reflexivity.
  - discriminate.
  - repeat constructor.
Defined.

(** ** The entry point *)

Lemma hasNonEmptyChangesets_spec (changesets : list Changeset) :
  hasNonEmptyChangesets changesets = true
  ↔ Exists (fun changeset => changeset_releases changeset ≠ []) changesets.
Proof.
  unfold hasNonEmptyChangesets. induction changesets as [|c cs IH].
  - split; [done | by intros ?%Exists_nil].
  - cbn [existsb]. rewrite orb_true_iff, IH, Exists_cons.
    assert ((0 <? Z.of_nat (length (changeset_releases c))) = true
            ↔ changeset_releases c ≠ []) as ->; [|done].
    destruct (changeset_releases c); cbn [length]; split; try done; lia.
Qed.

Lemma selectMode_spec (changesets : list Changeset) (publishScript : jsstring) :
  selectMode changesets publishScript
  = match changesets with
    | [] => match publishScript with [] => NoChangesets | _ :: _ => PublishMode end
    | _ :: _ =>
        if hasNonEmptyChangesets changesets then VersionMode else EmptyChangesets
    end.
Proof.
  unfold selectMode. destruct changesets as [|c cs].
  - by destruct publishScript.
  - cbn [length]. rewrite bool_decide_false by done. cbn [negb andb].
    by destruct (hasNonEmptyChangesets (c :: cs)).
Qed.

(** X15: the script takes exactly one branch. It versions exactly when
    some changeset asks for a release, whether a publish script is
    configured or not; it publishes exactly when there is no changeset
    at all and the publish input is not empty; with changesets that are
    all empty, or with neither changesets nor a publish script, it does
    nothing. *)
Theorem mode_selection (changesets : list Changeset) (publishScript : jsstring) :
  (selectMode changesets publishScript = VersionMode
   ↔ Exists (fun changeset => changeset_releases changeset ≠ []) changesets)
  ∧ (selectMode changesets publishScript = PublishMode
     ↔ changesets = [] ∧ publishScript ≠ [])
  ∧ (selectMode changesets publishScript = EmptyChangesets
     ↔ changesets ≠ []
       ∧ Forall (fun changeset => changeset_releases changeset = []) changesets)
  ∧ (selectMode changesets publishScript = NoChangesets
     ↔ changesets = [] ∧ publishScript = [])
  ∧ selectMode changesets publishScript ≠ NoMode.
Proof.
  rewrite selectMode_spec.
  pose proof (hasNonEmptyChangesets_spec changesets) as Hsome.
  destruct changesets as [|c cs].
  - destruct publishScript; repeat split; try done;
      try (by intros ?%Exists_nil); try (by intros [? ?]).
  - destruct (hasNonEmptyChangesets (c :: cs)) eqn:E.
    + split; [split; [intros _; by apply Hsome | done]|].
      split; [split; [done | by intros [? ?]]|].
      split; [|split; [split; [done | by intros [? ?]] | done]].
      split; [done|]. intros [_ Hall]. exfalso.
      apply proj1 in Hsome. specialize (Hsome eq_refl).
      apply Exists_exists in Hsome as (x & Hx & Hne).
      by eapply Forall_forall in Hall.
    + split; [split; [done | by intros ?%Hsome]|].
      split; [split; [done | by intros [? ?]]|].
      split; [|split; [split; [done | by intros [? ?]] | done]].
      split; [|done]. intros _. split; [done|].
      apply Forall_forall. intros x Hx.
      destruct (changeset_releases x) as [|r l] eqn:Ex; [done|].
      assert (false = true); [|done]. apply Hsome.
      apply Exists_exists. exists x. split; [done|]. by rewrite Ex.
Qed.

(** ** The user's [.npmrc] *)

Lemma split_first (sep : N) (p r : jsstring) :
  Forall (fun c => c ≠ sep) p →
  ∃ l ls, split sep (p ++ r) = (p ++ l) :: ls.
Proof.
  induction 1 as [|c p Hc _ (l & ls & IH)].
  - destruct (split_nonempty sep r) as (l & ls & E). by exists l, ls.
  - cbn [app split]. rewrite IH.
    destruct (N.eqb_spec c sep); [done|]. by exists l, ls.
Qed.

Lemma find_app {A} (f : A → bool) (l1 l2 : list A) :
  List.find f l1 = None → List.find f (l1 ++ l2) = List.find f l2.
Proof.
  induction l1 as [|x l1 IH]; [done|]. simpl. destruct (f x); [done | exact IH].
Qed.

Lemma authTokenLine_found (token : option jsstring) :
  is_Some (List.find isAuthLine (split 10 (authTokenLine token))).
Proof.
  unfold authTokenLine.
  destruct (split_first 10 (js "//registry.npmjs.org/:_authToken=")
              (env_text token ++ LF)) as (l & ls & ->).
  - apply (bool_decide_unpack _). vm_compute. exact I.
  - cbn [List.find].
    assert (isAuthLine (js "//registry.npmjs.org/:_authToken=" ++ l) = true) as ->
      by (vm_compute; reflexivity).
    by eexists.
Qed.

Lemma ensureNpmrc_found (npmrc token : option jsstring) :
  is_Some (List.find isAuthLine (split 10 (ensureNpmrc npmrc token))).
Proof.
  unfold ensureNpmrc. destruct npmrc as [content|]; [|apply authTokenLine_found].
  destruct (List.find isAuthLine (split 10 content)) as [line|] eqn:E.
  - rewrite E. by eexists.
  - unfold LF. cbn [app]. rewrite split_app, find_app by done.
    apply authTokenLine_found.
Qed.

(** X17: after the publish branch has looked at it, the user's
    [.npmrc] has a line with an auth token for the npm registry; a file
    that had one is left as it was, so that looking at the file again,
    with any token, changes nothing. *)
Theorem npmrc_gets_one_auth_line (npmrc token token' : option jsstring) :
  is_Some (List.find isAuthLine (split 10 (ensureNpmrc npmrc token)))
  ∧ (∀ content, npmrc = Some content →
       is_Some (List.find isAuthLine (split 10 content)) →
       ensureNpmrc npmrc token = content)
  ∧ ensureNpmrc (Some (ensureNpmrc npmrc token)) token' = ensureNpmrc npmrc token.
Proof.
  split; [apply ensureNpmrc_found|]. split.
  - intros content -> [line Hline]. unfold ensureNpmrc. by rewrite Hline.
  - destruct (ensureNpmrc_found npmrc token) as [line Hline].
    unfold ensureNpmrc at 1. by rewrite Hline.
Qed.

(** ** What the script reports *)

Section Reports.
Context {S : Type}.
Variables (env : Env) (api : Backend S).
Variable getChangelogEntry : jsstring -> jsstring -> option ChangelogEntry.
Variable sortTheThings : PackageInfo -> PackageInfo -> Z.

Lemma outputOf_first (changesets : list Changeset) err ws rc :
  let r := {| outputs := firstOutputs changesets; failed := err;
              warnings := ws; npmrcWritten := rc |} in
  outputOf "published" r = Some (Text (js "false"))
  ∧ outputOf "pullRequestNumber" r = None.
Proof. split; reflexivity. Qed.

Lemma outputOf_published (changesets : list Changeset) l err ws rc :
  let r := {| outputs := firstOutputs changesets
                         ++ [("published"%string, Text (js "true"));
                             ("publishedPackages"%string, PackagesJson l)];
              failed := err; warnings := ws; npmrcWritten := rc |} in
  outputOf "published" r = Some (Text (js "true"))
  ∧ outputOf "publishedPackages" r = Some (PackagesJson l)
  ∧ outputOf "pullRequestNumber" r = None.
Proof. repeat split; reflexivity. Qed.

Lemma outputOf_version (changesets : list Changeset) v err ws rc :
  let r := {| outputs := firstOutputs changesets ++ [("pullRequestNumber"%string, v)];
              failed := err; warnings := ws; npmrcWritten := rc |} in
  outputOf "published" r = Some (Text (js "false"))
  ∧ outputOf "pullRequestNumber" r = Some v.
Proof. split; reflexivity. Qed.

Lemma outputOf_nil name err ws rc :
  outputOf name {| outputs := []; failed := err; warnings := ws; npmrcWritten := rc |}
  = None.
Proof. reflexivity. Qed.

Ltac report_case :=
  cbn [fst snd outputs failed]; split_and?; intros;
  cbn [fst snd outputs failed] in *; rewrite ?outputOf_nil in *;
  try done; try (by eexists);
  try (by match goal with H : is_Some None |- _ => destruct H end).

(** X18: what a run of the script reports. Without a token it fails
    at once and asks the backend nothing. The [published] output is
    [true] only when the publish branch ended well with packages
    published, and then [publishedPackages] lists them and is not
    empty; [pullRequestNumber] is set only when the version branch
    ended well, [published] being [false] then; and when the run
    fails, [published] is not [true] and no number is set. *)
Theorem main_reports (inp : ActionInputs) (s : S) :
  let r := fst (main env api getChangelogEntry sortTheThings inp s) in
  (truthy (GITHUB_TOKEN inp) = false →
     snd (main env api getChangelogEntry sortTheThings inp s) = s
     ∧ outputs r = [] ∧ is_Some (failed r))
  ∧ (outputOf "published" r = Some (Text (js "true")) →
     failed r = None
     ∧ ∃ l, l ≠ [] ∧ outputOf "publishedPackages" r = Some (PackagesJson l))
  ∧ (is_Some (outputOf "pullRequestNumber" r) →
     failed r = None ∧ outputOf "published" r = Some (Text (js "false")))
  ∧ (is_Some (failed r) →
     outputOf "published" r ≠ Some (Text (js "true"))
     ∧ outputOf "pullRequestNumber" r = None).
Proof.
  cbv zeta. unfold main.
  destruct (truthy (GITHUB_TOKEN inp)); cbn [negb]; [|report_case].
  destruct (changeDirectory inp) as [[]|]; [|report_case].
  destruct (if input_setupGitUser inp then setupUser inp else Return tt) as [[]|];
    [|report_case].
  destruct (writeNetrc inp) as [[]|]; [|report_case].
  destruct (readChangesets inp) as [changesets|]; [|report_case].
  split; [done|].
  destruct (selectMode changesets (input_publish inp));
    try (cbn [fst];
         destruct (outputOf_first changesets None [] None) as [-> ->];
         report_case).
  - destruct (extractCreateGithubReleases _) as [create ws].
    destruct (runPublish _ _ _ _ s) as [[[l|]|e] s'] eqn:Erun; cbn [fst].
    + destruct (outputOf_published changesets l None ws
                  (Some (ensureNpmrc (userNpmrc inp) (NPM_TOKEN inp))))
        as (-> & -> & ->).
      apply runPublish_Published in Erun as [Hne _].
      split_and?; intros; cbn [failed] in *; try done;
        try (by split; [|exists l]);
        try (by match goal with H : is_Some None |- _ => destruct H end).
    + destruct (outputOf_first changesets None ws
                  (Some (ensureNpmrc (userNpmrc inp) (NPM_TOKEN inp)))) as [-> ->].
      report_case.
    + destruct (outputOf_first changesets (Some (message e)) ws
                  (Some (ensureNpmrc (userNpmrc inp) (NPM_TOKEN inp)))) as [-> ->].
      report_case.
  - destruct (runVersion _ _ _ _ _ s) as [[n|e] s'] eqn:Erun; cbn [fst].
    + destruct (outputOf_version changesets (Text (js (pretty n))) None [] None)
        as [-> ->].
      report_case.
    + destruct (outputOf_first changesets (Some (message e)) [] None) as [-> ->].
      report_case.
Qed.
End Reports.

(** ** Publishing without changelogs *)

Section NoChangelogs.
Context {S : Type}.
Variables (env : Env) (api : Backend S).
Variable getChangelogEntry : jsstring -> jsstring -> option ChangelogEntry.

Lemma release_all_skipped (tagOf : Package → jsstring) (l : list Package) (s : S) :
  Forall (fun pkg => ∃ msg, readFile env (path_join (dir pkg) (js "CHANGELOG.md"))
                            = Throw (SystemError (js "ENOENT") msg)) l →
  Promise_all (map (fun pkg => createRelease env api getChangelogEntry pkg (tagOf pkg)) l) s
  = (Return tt, s).
Proof.
  induction 1 as [|pkg l [msg Hpkg] _ IH]; [done|].
  cbn [map Promise_all].
  by rewrite (createRelease_without_changelog env api getChangelogEntry pkg _ msg s Hpkg).
Qed.

(** X19: in a multi-package workspace whose tagged packages have no
    changelog file, a publish run with releases switched on calls the
    backend for none of them and still reports every one of them as
    published. *)
Theorem publish_without_changelogs o stdout packages tool released (s : S) :
  getExecOutput env (publish_script o) = Return stdout →
  pushTags env = Return tt →
  getPackages env = Return (packages, tool) →
  tool ≠ js "root" →
  scanTags (packagesByName packages) (split 10 stdout) [] = Return released →
  Forall (fun pkg => ∃ msg, readFile env (path_join (dir pkg) (js "CHANGELOG.md"))
                            = Throw (SystemError (js "ENOENT") msg)) released →
  runPublish env api getChangelogEntry o s = (Return (publishResult released), s).
Proof.
  intros Hout Htags Hpkgs Htool Hscan Hnone.
  unfold runPublish, bind, lift. rewrite Hout, Htags, Hpkgs.
  unfold isRoot. rewrite bool_decide_false by done. cbn [negb].
  rewrite Hscan. unfold ret at 1.
  destruct (publish_createGithubReleases o); cbn [when]; [|done].
  by rewrite release_all_skipped.
Qed.
End NoChangelogs.

Lemma publish_without_changelogs_witness :
  runPublish (workspace None "pnpm" [pkg_a; pkg_b] (join LF tagLines) ∅)
             (memServer acme) entryOf releaseAll emptyStore
  = (Return (Published [summary pkg_a; summary pkg_b]), emptyStore).
Proof.
  apply (publish_without_changelogs
           (workspace None "pnpm" [pkg_a; pkg_b] (join LF tagLines) ∅)
           (memServer acme) entryOf releaseAll (join LF tagLines)
           [pkg_a; pkg_b] (js "pnpm") [pkg_a; pkg_b] emptyStore);
    try reflexivity.
  - discriminate.
  - constructor; [|constructor; [|constructor]]; eexists; vm_compute; reflexivity.
Defined.
